(** * easy-crop: the crop-geometry engine and its event handlers

    A shallow embedding of the TypeScript sources

      - [constants.ts] / [types.ts]  (presets and record types),
      - [components/ImageUploader.tsx]  (upload filter),
      - [components/CropPreview.tsx]  (pan clamping, drag),
      - [App.tsx]  (target fitting, cover layout, zoom, crop, file names).

    JavaScript numbers are abstracted by the interface [JSNumber].  All
    engine code is written once against that interface and is instantiated
    twice: at [float] (IEEE 754 binary64, the numbers the browser computes
    with) and at [Q] (exact rational arithmetic, the values the formulas
    denote before rounding).  General properties are proved at [Q], or
    for every instance where the arithmetic plays no part; where a
    rounding error changes what the program does, the program is
    evaluated at [float]. *)

From Stdlib Require Import ZArith QArith Qround Qabs Qminmax Lqa Lia.
From Stdlib Require Import String Ascii DecimalString.
From Stdlib Require Import PrimFloat SpecFloat FloatOps.
From stdpp Require Import gmap strings list fin_maps.

(* ===================================================================== *)
(** * Numbers                                                             *)
(* ===================================================================== *)

(** The operations on [number] that the sources use.  [Math_floor] and
    [Math_round] return the integer they denote; [of_Z] stores an integer
    back into a [number]-typed field.  [truthy] is the test behind
    [x || d] and [if (x)]. *)
Class JSNumber (N : Type) := {
  of_Z : Z -> N;
  num_add : N -> N -> N;
  num_sub : N -> N -> N;
  num_mul : N -> N -> N;
  num_div : N -> N -> N;
  num_gt : N -> N -> bool;
  Math_min : N -> N -> N;
  Math_max : N -> N -> N;
  Math_abs : N -> N;
  Math_floor : N -> Z;
  Math_round : N -> Z;
  truthy : N -> bool
}.

Declare Scope js_scope.
Delimit Scope js_scope with js.
Infix "+" := num_add : js_scope.
Infix "-" := num_sub : js_scope.
Infix "*" := num_mul : js_scope.
Infix "/" := num_div : js_scope.
Infix ">?" := num_gt (at level 70, no associativity) : js_scope.

(** ** Exact rationals

    Arithmetic without rounding error, overflow, infinities or
    not-a-number: an idealisation of the doubles of the browser, not a
    model of them.  A statement proved at [Q] is about the exact values
    of the formulas.  It carries over to binary64 when it does not hang
    on the last bit of a result: which operand a branch stores (clamping,
    the cover layout), the bounds a clamp enforces, which keys a handler
    writes and what it leaves alone.  It does not carry over when two
    results computed along different paths are compared for equality, or
    when a comparison, a floor or a rounding falls on an exact boundary;
    there the last bit decides, and the binary64 instance below is the
    one that says what the program does.

    [Qdiv] by zero is zero where JavaScript yields an infinity or
    not-a-number, so the properties below that divide take their
    denominators (image, target and preset dimensions, zoom) to be
    positive. *)

Definition Qgtb (a b : Q) : bool := negb (Qle_bool a b).

(** [Math.round] rounds to the nearest integer, ties towards +infinity. *)
Definition Qround_half_up (a : Q) : Z := Qfloor (a + (1 # 2)).

#[export] Instance Q_number : JSNumber Q := {|
  of_Z := inject_Z;
  num_add := Qplus;
  num_sub := Qminus;
  num_mul := Qmult;
  num_div := Qdiv;
  num_gt := Qgtb;
  Math_min := Qmin;
  Math_max := Qmax;
  Math_abs := Qabs;
  Math_floor := Qfloor;
  Math_round := Qround_half_up;
  truthy := fun a => negb (Qeq_bool a 0)
|}.

(** ** IEEE 754 binary64 *)

(** The integer part of a finite double [(-1)^s * m * 2^e], rounding
    towards -infinity ([half = false]) or to nearest with ties towards
    +infinity ([half = true]).  Not-a-number and the infinities have no
    integer value; they are sent to [0]. *)
Definition SF_to_Z (half : bool) (f : spec_float) : Z :=
  match f with
  | S754_finite s m e =>
      let z := if s then Z.neg m else Z.pos m in
      if (0 <=? e)%Z then (z * 2 ^ e)%Z
      else if half then ((2 * z + 2 ^ (- e)) / 2 ^ (- e + 1))%Z
      else (z / 2 ^ (- e))%Z
  | _ => 0%Z
  end.

Definition float_of_Z (z : Z) : float :=
  SF2Prim (binary_normalize prec emax z 0 false).

Definition float_min (a b : float) : float :=
  if PrimFloat.ltb a b then a else if PrimFloat.ltb b a then b
  else if PrimFloat.eqb a a then b else a.

Definition float_max (a b : float) : float :=
  if PrimFloat.ltb a b then b else if PrimFloat.ltb b a then a
  else if PrimFloat.eqb a a then b else a.

#[export] Instance float_number : JSNumber float := {|
  of_Z := float_of_Z;
  num_add := PrimFloat.add;
  num_sub := PrimFloat.sub;
  num_mul := PrimFloat.mul;
  num_div := PrimFloat.div;
  num_gt := fun a b => PrimFloat.ltb b a;
  Math_min := float_min;
  Math_max := float_max;
  Math_abs := PrimFloat.abs;
  Math_floor := fun a => SF_to_Z false (Prim2SF a);
  Math_round := fun a => SF_to_Z true (Prim2SF a);
  truthy := fun a => negb (PrimFloat.eqb a PrimFloat.zero) && PrimFloat.eqb a a
|}.

(** Decimal rendering of an integer, as a template literal prints an
    integral number. *)
Definition string_of_Z (z : Z) : string := NilZero.string_of_int (Z.to_int z).

(* ===================================================================== *)
(** * Data model ([types.ts], [App.tsx])                                  *)
(* ===================================================================== *)

Module CropPreset.
Record t (N : Type) : Type := mk {
  id : string;
  label : string;
  baseWidth : N;
  baseHeight : N;
  suffix : string
}.
#[global] Arguments mk {N}.
#[global] Arguments id {N}.
#[global] Arguments label {N}.
#[global] Arguments baseWidth {N}.
#[global] Arguments baseHeight {N}.
#[global] Arguments suffix {N}.
End CropPreset.

(** [suffix?] and [label?] are optional properties. *)
Module CropTarget.
Record t (N : Type) : Type := mk {
  id : string;
  width : N;
  height : N;
  suffix : option string;
  label : option string
}.
#[global] Arguments mk {N}.
#[global] Arguments id {N}.
#[global] Arguments width {N}.
#[global] Arguments height {N}.
#[global] Arguments suffix {N}.
#[global] Arguments label {N}.
End CropTarget.

Module Vector2D.
Record t (N : Type) : Type := mk { x : N; y : N }.
#[global] Arguments mk {N}.
#[global] Arguments x {N}.
#[global] Arguments y {N}.
End Vector2D.

(** [ImageInfo] without its [element] field: the decoded raster is a
    browser object that the geometry never inspects. *)
Module ImageInfo.
Record t (N : Type) : Type := mk {
  src : string;
  width : N;
  height : N;
  name : string;
  size : N
}.
#[global] Arguments mk {N}.
#[global] Arguments src {N}.
#[global] Arguments width {N}.
#[global] Arguments height {N}.
#[global] Arguments name {N}.
#[global] Arguments size {N}.
End ImageInfo.

(** The [{ width; height }] objects nested in a layout. *)
Module Size.
Record t (N : Type) : Type := mk { width : N; height : N }.
#[global] Arguments mk {N}.
#[global] Arguments width {N}.
#[global] Arguments height {N}.
End Size.

Module PreviewLayout.
Record t (N : Type) : Type := mk {
  container : Size.t N;
  image : Size.t N;
  scaleFactor : N
}.
#[global] Arguments mk {N}.
#[global] Arguments container {N}.
#[global] Arguments image {N}.
#[global] Arguments scaleFactor {N}.
End PreviewLayout.

Module CroppedResult.
Record t (N : Type) : Type := mk { url : string; size : N }.
#[global] Arguments mk {N}.
#[global] Arguments url {N}.
#[global] Arguments size {N}.
End CroppedResult.

(** The part of a DOM [File] that the sources read. *)
Module File.
Record t (N : Type) : Type := mk { name : string; type : string; size : N }.
#[global] Arguments mk {N}.
#[global] Arguments name {N}.
#[global] Arguments type {N}.
#[global] Arguments size {N}.
End File.

(* ===================================================================== *)
(** * [components/ImageUploader.tsx]                                      *)
(* ===================================================================== *)

Section ImageUploader.
Context {N St : Type}.
Variable onImageUpload : File.t N -> St -> St.

(** [event.target.files?.[0]] is the head of the file list; the handler
    runs the callback on it when its declared type starts with
    ["image/"], and does nothing otherwise. *)
Definition handleFileChange (files : list (File.t N)) (s : St) : St :=
  match head files with
  | Some file =>
      if String.prefix "image/" (File.type file) then onImageUpload file s else s
  | None => s
  end.

(** [handleDrop] reads [event.dataTransfer.files?.[0]] and applies the same
    test; its other statements act on the event and on a CSS class. *)
Definition handleDrop (files : list (File.t N)) (s : St) : St :=
  match head files with
  | Some file =>
      if String.prefix "image/" (File.type file) then onImageUpload file s else s
  | None => s
  end.
End ImageUploader.

(* ===================================================================== *)
(** * [components/CropPreview.tsx]                                        *)
(* ===================================================================== *)

Section CropPreview.
Context {N : Type} `{JSNumber N}.
Local Open Scope js_scope.

(** [container] and [image] are the two sizes of the [layout] prop. *)
Variables container image : Size.t N.

Definition clampPosition (pos : Vector2D.t N) : Vector2D.t N :=
  let minX := Size.width container - Size.width image in
  let minY := Size.height container - Size.height image in
  {| Vector2D.x := Math_min (of_Z 0) (Math_max minX (Vector2D.x pos));
     Vector2D.y := Math_min (of_Z 0) (Math_max minY (Vector2D.y pos)) |}.

(** The component's own state. *)
Record DragState : Type := mkDrag {
  isDragging : bool;
  dragStart : Vector2D.t N
}.

Definition handleMouseDown (position : Vector2D.t N) (clientX clientY : N) : DragState :=
  {| isDragging := true;
     dragStart := {| Vector2D.x := clientX - Vector2D.x position;
                     Vector2D.y := clientY - Vector2D.y position |} |}.

(** [handleMouseMove] either returns early ([None]) or calls
    [onPositionChange(target.id, clampPosition(newPos))]; the result is
    the position it passes. *)
Definition handleMouseMove (d : DragState) (clientX clientY : N)
  : option (Vector2D.t N) :=
  if negb (isDragging d) then None
  else
    let newPos := {| Vector2D.x := clientX - Vector2D.x (dragStart d);
                     Vector2D.y := clientY - Vector2D.y (dragStart d) |} in
    Some (clampPosition newPos).

Definition handleMouseUp (d : DragState) : DragState :=
  {| isDragging := false; dragStart := dragStart d |}.
End CropPreview.

#[global] Arguments DragState N : clear implicits.

(* ===================================================================== *)
(** * [constants.ts] and [App.tsx]                                        *)
(* ===================================================================== *)

(** Oracle for the browser services that one target's export relies on:
    whether [canvas.getContext('2d')] yields a context, and the blob (its
    object URL and byte size) that [canvas.toBlob] hands to its callback,
    if any. *)
Record Canvas (N : Type) : Type := mkCanvas {
  getContext : string -> bool;
  toBlob : string -> option (CroppedResult.t N)
}.
#[global] Arguments mkCanvas {N}.
#[global] Arguments getContext {N}.
#[global] Arguments toBlob {N}.

(** What the user and the developer console get to see. *)
Inductive Effect : Type :=
| DrawImage (id : string) (sx sy sWidth sHeight dWidth dHeight : Z)
| ConsoleError (msg : string) (error : string)
| Alert (msg : string).

(** [Promise.all]: the list of all values when every promise resolves,
    and otherwise a rejection (here the first one in list order; which one
    the browser reports depends on timing). *)
Fixpoint Promise_all {E A : Type} (l : list (E + A)) : E + list A :=
  match l with
  | [] => inr []
  | inl e :: _ => inl e
  | inr a :: rest =>
      match Promise_all rest with
      | inl e => inl e
      | inr results => inr (a :: results)
      end
  end.

(** [file.name.replace(/\.[^/.]+$/, "")]: the match starts at a dot that
    is followed, up to the end of the string, by one or more characters
    other than ['/'] and ['.']. *)
Fixpoint isExtension (s : string) : bool :=
  match s with
  | EmptyString => true
  | String c rest =>
      negb (Ascii.eqb c "/") && negb (Ascii.eqb c ".") && isExtension rest
  end.

Fixpoint removeExtension (s : string) : string :=
  match s with
  | EmptyString => EmptyString
  | String c rest =>
      if Ascii.eqb c "." && negb (String.eqb rest "") && isExtension rest
      then EmptyString
      else String c (removeExtension rest)
  end.

Section App.
Context {N : Type} `{JSNumber N}.
Local Open Scope js_scope.

Definition preset_mobile : CropPreset.t N :=
  {| CropPreset.id := "mobile"; CropPreset.label := "Mobile";
     CropPreset.baseWidth := of_Z 1055; CropPreset.baseHeight := of_Z 967;
     CropPreset.suffix := "_S" |}.

Definition preset_desktop : CropPreset.t N :=
  {| CropPreset.id := "desktop"; CropPreset.label := "Desktop";
     CropPreset.baseWidth := of_Z 1024; CropPreset.baseHeight := of_Z 440;
     CropPreset.suffix := "_L" |}.

Definition CROP_PRESETS : list (CropPreset.t N) := [preset_mobile; preset_desktop].

Definition PREVIEW_WIDTH : N := of_Z 450.

(** [o || d] for a number read from a [Record<string, number>]. *)
Definition or_default (o : option N) (d : N) : N :=
  match o with
  | Some v => if truthy v then v else d
  | None => d
  end.

Record AppState : Type := mkApp {
  imageInfo : option (ImageInfo.t N);
  dynamicTargets : list (CropTarget.t N);
  cropPositions : gmap string (Vector2D.t N);
  zoomLevels : gmap string N;
  targetScales : gmap string N;
  croppedImages : gmap string (CroppedResult.t N);
  isProcessing : bool;
  quality : N
}.

Definition initialState : AppState :=
  {| imageInfo := None; dynamicTargets := []; cropPositions := ∅;
     zoomLevels := ∅; targetScales := ∅; croppedImages := ∅;
     isProcessing := false; quality := of_Z 92 / of_Z 100 |}.

(** ** Cover layout *)

Definition calculateLayout (target : CropTarget.t N) (imgInfo : ImageInfo.t N)
  : PreviewLayout.t N :=
  let targetRatio := CropTarget.width target / CropTarget.height target in
  let containerWidth := PREVIEW_WIDTH in
  let containerHeight := containerWidth / targetRatio in
  let imageRatio := ImageInfo.width imgInfo / ImageInfo.height imgInfo in
  let '(renderWidth, renderHeight) :=
    if imageRatio >? targetRatio then
      let renderHeight := containerHeight in
      (renderHeight * imageRatio, renderHeight)
    else
      let renderWidth := containerWidth in
      (renderWidth, renderWidth / imageRatio) in
  let scaleFactor := ImageInfo.width imgInfo / renderWidth in
  {| PreviewLayout.container :=
       {| Size.width := containerWidth; Size.height := containerHeight |};
     PreviewLayout.image :=
       {| Size.width := renderWidth; Size.height := renderHeight |};
     PreviewLayout.scaleFactor := scaleFactor |}.

(** ** Upload *)

(** The state changes of [resetState].  (It also releases the object
    URLs of the stored results, which live in the browser.) *)
Definition resetState (s : AppState) : AppState :=
  {| imageInfo := None; dynamicTargets := []; cropPositions := ∅;
     zoomLevels := ∅; targetScales := ∅; croppedImages := ∅;
     isProcessing := false; quality := of_Z 92 / of_Z 100 |}.

(** The function mapped over [CROP_PRESETS] in [img.onload]. *)
Definition newTarget (imgW imgH : N) (preset : CropPreset.t N) : CropTarget.t N :=
  let ratio := CropPreset.baseWidth preset / CropPreset.baseHeight preset in
  let targetW := imgW in
  let targetH := imgW / ratio in
  let '(targetW, targetH) :=
    if targetH >? imgH then (imgH * ratio, imgH) else (targetW, targetH) in
  {| CropTarget.id := CropPreset.id preset;
     CropTarget.label := Some (CropPreset.label preset);
     CropTarget.suffix := Some (CropPreset.suffix preset);
     CropTarget.width := of_Z (Math_floor targetW);
     CropTarget.height := of_Z (Math_floor targetH) |}.

Definition newTargets (imgW imgH : N) : list (CropTarget.t N) :=
  map (newTarget imgW imgH) CROP_PRESETS.

(** [newTargets.reduce((acc, target) => { acc[target.id] = 1; return acc }, {})] *)
Definition initialOnes (targets : list (CropTarget.t N)) : gmap string N :=
  foldl (fun acc target => <[CropTarget.id target := of_Z 1]> acc) ∅ targets.

Definition initialPositions (targets : list (CropTarget.t N))
    (newImageInfo : ImageInfo.t N) : gmap string (Vector2D.t N) :=
  foldl (fun acc target =>
           let layout := calculateLayout target newImageInfo in
           <[CropTarget.id target :=
               {| Vector2D.x :=
                    (Size.width (PreviewLayout.container layout)
                     - Size.width (PreviewLayout.image layout)) / of_Z 2;
                  Vector2D.y :=
                    (Size.height (PreviewLayout.container layout)
                     - Size.height (PreviewLayout.image layout)) / of_Z 2 |}]> acc)
        ∅ targets.

(** The [img.onload] callback: [src] is the data URL read from the file,
    [imgW] and [imgH] the decoded image's natural size. *)
Definition img_onload (file : File.t N) (src : string) (imgW imgH : N)
    (s : AppState) : AppState :=
  let fileName := removeExtension (File.name file) in
  let newImageInfo :=
    {| ImageInfo.src := src; ImageInfo.width := imgW; ImageInfo.height := imgH;
       ImageInfo.name := fileName; ImageInfo.size := File.size file |} in
  let newTargets := newTargets imgW imgH in
  {| imageInfo := Some newImageInfo;
     dynamicTargets := newTargets;
     zoomLevels := initialOnes newTargets;
     targetScales := initialOnes newTargets;
     cropPositions := initialPositions newTargets newImageInfo;
     croppedImages := croppedImages s;
     isProcessing := isProcessing s;
     quality := quality s |}.

(** [handleImageUpload]: reset at once; the reader and the decoder then
    either deliver [(src, naturalWidth, naturalHeight)], and [img.onload]
    runs, or never call back. *)
Definition handleImageUpload (decoded : option (string * N * N))
    (file : File.t N) (s : AppState) : AppState :=
  let s := resetState s in
  match decoded with
  | Some (src, imgW, imgH) => img_onload file src imgW imgH s
  | None => s
  end.

(** ** State setters *)

Definition setCropPositions (f : gmap string (Vector2D.t N) -> gmap string (Vector2D.t N))
    (s : AppState) : AppState :=
  {| imageInfo := imageInfo s; dynamicTargets := dynamicTargets s;
     cropPositions := f (cropPositions s); zoomLevels := zoomLevels s;
     targetScales := targetScales s; croppedImages := croppedImages s;
     isProcessing := isProcessing s; quality := quality s |}.

Definition setZoomLevels (f : gmap string N -> gmap string N) (s : AppState) : AppState :=
  {| imageInfo := imageInfo s; dynamicTargets := dynamicTargets s;
     cropPositions := cropPositions s; zoomLevels := f (zoomLevels s);
     targetScales := targetScales s; croppedImages := croppedImages s;
     isProcessing := isProcessing s; quality := quality s |}.

Definition setTargetScales (f : gmap string N -> gmap string N) (s : AppState) : AppState :=
  {| imageInfo := imageInfo s; dynamicTargets := dynamicTargets s;
     cropPositions := cropPositions s; zoomLevels := zoomLevels s;
     targetScales := f (targetScales s); croppedImages := croppedImages s;
     isProcessing := isProcessing s; quality := quality s |}.

Definition setCroppedImages (m : gmap string (CroppedResult.t N)) (s : AppState) : AppState :=
  {| imageInfo := imageInfo s; dynamicTargets := dynamicTargets s;
     cropPositions := cropPositions s; zoomLevels := zoomLevels s;
     targetScales := targetScales s; croppedImages := m;
     isProcessing := isProcessing s; quality := quality s |}.

Definition setIsProcessing (b : bool) (s : AppState) : AppState :=
  {| imageInfo := imageInfo s; dynamicTargets := dynamicTargets s;
     cropPositions := cropPositions s; zoomLevels := zoomLevels s;
     targetScales := targetScales s; croppedImages := croppedImages s;
     isProcessing := b; quality := quality s |}.

(** ** Pan, zoom, scale *)

Definition handlePositionChange (id : string) (newPosition : Vector2D.t N)
    (s : AppState) : AppState :=
  setCropPositions (fun prev => <[id := newPosition]> prev) s.

Definition zeroVector : Vector2D.t N :=
  {| Vector2D.x := of_Z 0; Vector2D.y := of_Z 0 |}.

Definition handleZoomChange (id : string) (newZoom : N) (s : AppState) : AppState :=
  match imageInfo s with
  | None => s
  | Some imageInfo =>
    match List.find (fun t => String.eqb (CropTarget.id t) id) (dynamicTargets s) with
    | None => s
    | Some target =>
      let oldZoom := or_default (zoomLevels s !! id) (of_Z 1) in
      let layout := calculateLayout target imageInfo in
      let pos := default zeroVector (cropPositions s !! id) in
      let container := PreviewLayout.container layout in
      let containerCenter :=
        {| Vector2D.x := Size.width container / of_Z 2;
           Vector2D.y := Size.height container / of_Z 2 |} in
      let offsetFromImageOrigin :=
        {| Vector2D.x := Vector2D.x containerCenter - Vector2D.x pos;
           Vector2D.y := Vector2D.y containerCenter - Vector2D.y pos |} in
      let scaleChange := newZoom / oldZoom in
      let newOffset :=
        {| Vector2D.x := Vector2D.x offsetFromImageOrigin * scaleChange;
           Vector2D.y := Vector2D.y offsetFromImageOrigin * scaleChange |} in
      let newX := Vector2D.x containerCenter - Vector2D.x newOffset in
      let newY := Vector2D.y containerCenter - Vector2D.y newOffset in
      let zoomedWidth := Size.width (PreviewLayout.image layout) * newZoom in
      let zoomedHeight := Size.height (PreviewLayout.image layout) * newZoom in
      let minX := Size.width container - zoomedWidth in
      let minY := Size.height container - zoomedHeight in
      let newX := Math_min (of_Z 0) (Math_max minX newX) in
      let newY := Math_min (of_Z 0) (Math_max minY newY) in
      setCropPositions
        (fun prev => <[id := {| Vector2D.x := newX; Vector2D.y := newY |}]> prev)
        (setZoomLevels (fun prev => <[id := newZoom]> prev) s)
    end
  end.

Definition handleScaleChange (id : string) (newScale : N) (s : AppState) : AppState :=
  setTargetScales (fun prev => <[id := newScale]> prev) s.

(** ** What the render function hands to one [CropPreview] *)

(** [displayLayout]: the base container, and the base image size
    multiplied by the target's current zoom. *)
Definition displayLayout (target : CropTarget.t N) (imageInfo : ImageInfo.t N)
    (s : AppState) : Size.t N * Size.t N :=
  let baseLayout := calculateLayout target imageInfo in
  let currentZoom := or_default (zoomLevels s !! CropTarget.id target) (of_Z 1) in
  (PreviewLayout.container baseLayout,
   {| Size.width := Size.width (PreviewLayout.image baseLayout) * currentZoom;
      Size.height := Size.height (PreviewLayout.image baseLayout) * currentZoom |}).

(** A mouse move over the preview of [target], whose drag state is [d]:
    the preview clamps against its [layout] prop and reports through
    [onPositionChange = handlePositionChange].  Previews only exist
    while an image is loaded. *)
Definition preview_mouseMove (target : CropTarget.t N) (d : DragState N)
    (clientX clientY : N) (s : AppState) : AppState :=
  match imageInfo s with
  | None => s
  | Some imageInfo =>
      let '(container, image) := displayLayout target imageInfo s in
      match handleMouseMove container image d clientX clientY with
      | Some newPosition => handlePositionChange (CropTarget.id target) newPosition s
      | None => s
      end
  end.

(** ** Crop *)

(** The source rectangle of [handleCrop], in pixels of the original
    image, before its coordinates are rounded. *)
Definition sourceRectangle (imageInfo : ImageInfo.t N) (layout : PreviewLayout.t N)
    (zoom : N) (position : Vector2D.t N) : N * N * N * N :=
  let renderedWidth := Size.width (PreviewLayout.image layout) * zoom in
  let finalScaleFactor := ImageInfo.width imageInfo / renderedWidth in
  let sourceX := Math_abs (Vector2D.x position) * finalScaleFactor in
  let sourceY := Math_abs (Vector2D.y position) * finalScaleFactor in
  let sourceWidth := Size.width (PreviewLayout.container layout) * finalScaleFactor in
  let sourceHeight := Size.height (PreviewLayout.container layout) * finalScaleFactor in
  (sourceX, sourceY, sourceWidth, sourceHeight).

(** The four source arguments that [ctx.drawImage] receives. *)
Definition drawImageSource (imageInfo : ImageInfo.t N) (layout : PreviewLayout.t N)
    (zoom : N) (position : Vector2D.t N) : Z * Z * Z * Z :=
  let '(sourceX, sourceY, sourceWidth, sourceHeight) :=
    sourceRectangle imageInfo layout zoom position in
  (Math_round sourceX, Math_round sourceY,
   Math_round sourceWidth, Math_round sourceHeight).

(** One element of [cropPromises]: the effects of its synchronous part
    and how the promise settles.  Reading [position.x] of a missing
    position throws inside the [try], and the [catch] rejects. *)
Definition cropPromise (env : Canvas N) (imageInfo : ImageInfo.t N) (s : AppState)
    (target : CropTarget.t N)
  : list Effect * (string + (string * CroppedResult.t N)) :=
  let id := CropTarget.id target in
  let scale := or_default (targetScales s !! id) (of_Z 1) in
  let outputWidth := Math_round (CropTarget.width target * scale) in
  let outputHeight := Math_round (CropTarget.height target * scale) in
  if negb (getContext env id) then ([], inl "Failed to get canvas context"%string)
  else
    let layout := calculateLayout target imageInfo in
    let zoom := or_default (zoomLevels s !! id) (of_Z 1) in
    match cropPositions s !! id with
    | None => ([], inl "TypeError"%string)
    | Some position =>
        let '(sx, sy, sw, sh) := drawImageSource imageInfo layout zoom position in
        ([DrawImage id sx sy sw sh outputWidth outputHeight],
         match toBlob env id with
         | Some blob => inr (id, blob)
         | None => inl "Failed to create blob"%string
         end)
    end.

Definition handleCrop (env : Canvas N) (s : AppState) : AppState * list Effect :=
  match imageInfo s with
  | None => (s, [])
  | Some imageInfo =>
      let s := setIsProcessing true s in
      let cropPromises := map (cropPromise env imageInfo s) (dynamicTargets s) in
      let drawn := concat (map fst cropPromises) in
      match Promise_all (map snd cropPromises) with
      | inr results =>
          let newCroppedImages :=
            foldl (fun acc curr => <[fst curr := snd curr]> acc) ∅ results in
          (setIsProcessing false (setCroppedImages newCroppedImages s), drawn)
      | inl error =>
          (setIsProcessing false s,
           drawn ++ [ConsoleError "Cropping failed:" error;
                     Alert "An error occurred during cropping. Please check the console."])
      end
  end.

(** ** File names *)

Definition getOutputFilename (baseName : string) (target : CropTarget.t N)
    (scale : N) : string :=
  let w := Math_round (CropTarget.width target * scale) in
  let h := Math_round (CropTarget.height target * scale) in
  match CropTarget.suffix target with
  | Some suffix =>
      if negb (String.eqb suffix "") then
        baseName +:+ suffix +:+ "_" +:+ string_of_Z w +:+ "x" +:+ string_of_Z h +:+ ".webp"
      else baseName +:+ "_" +:+ string_of_Z w +:+ "x" +:+ string_of_Z h +:+ ".webp"
  | None => baseName +:+ "_" +:+ string_of_Z w +:+ "x" +:+ string_of_Z h +:+ ".webp"
  end.
(** ** What the render function shows besides the layout *)

(** The [displayTarget] handed to a preview: the target with its
    dimensions replaced by the output dimensions at the current scale. *)
Definition displayTarget (s : AppState) (target : CropTarget.t N) : CropTarget.t N :=
  let currentScale := or_default (targetScales s !! CropTarget.id target) (of_Z 1) in
  {| CropTarget.id := CropTarget.id target;
     CropTarget.width := of_Z (Math_round (CropTarget.width target * currentScale));
     CropTarget.height := of_Z (Math_round (CropTarget.height target * currentScale));
     CropTarget.suffix := CropTarget.suffix target;
     CropTarget.label := CropTarget.label target |}.

(** The download link of a target in the results section, if it is
    rendered: its [href] and its [download] attribute. *)
Definition resultDownload (imageInfo : ImageInfo.t N) (s : AppState)
    (target : CropTarget.t N) : option (string * string) :=
  let currentScale := or_default (targetScales s !! CropTarget.id target) (of_Z 1) in
  match croppedImages s !! CropTarget.id target with
  | Some result =>
      Some (CroppedResult.url result,
            getOutputFilename (ImageInfo.name imageInfo) target currentScale)
  | None => None
  end.
End App.

#[global] Arguments AppState N : clear implicits.

(* ===================================================================== *)
(** * The specification's formulas, and the scenarios                     *)
(* ===================================================================== *)

Local Open Scope Q_scope.

(** The specification's wording of section 4.3 (clamp) and section 4.4
    (anchor at the container's centre), over the rationals. *)
Definition spec_clamp (Cw Ch Iw Ih : Q) (p : Vector2D.t Q) : Vector2D.t Q :=
  let minX := Cw - Iw in
  let minY := Ch - Ih in
  {| Vector2D.x := Qmin 0 (Qmax minX (Vector2D.x p));
     Vector2D.y := Qmin 0 (Qmax minY (Vector2D.y p)) |}.

Definition spec_zoom_anchor (Cw Ch : Q) (p : Vector2D.t Q) (z_old z_new : Q)
  : Vector2D.t Q :=
  let centerX := Cw / 2 in
  let centerY := Ch / 2 in
  let offsetX := centerX - Vector2D.x p in
  let offsetY := centerY - Vector2D.y p in
  let newOffsetX := offsetX * (z_new / z_old) in
  let newOffsetY := offsetY * (z_new / z_old) in
  {| Vector2D.x := centerX - newOffsetX; Vector2D.y := centerY - newOffsetY |}.

Definition spec_zoom_reposition (Cw Ch Iw Ih : Q) (p : Vector2D.t Q) (z_old z_new : Q)
  : Vector2D.t Q :=
  spec_clamp Cw Ch (Iw * z_new) (Ih * z_new) (spec_zoom_anchor Cw Ch p z_old z_new).

(** Equality of positions up to the representation of fractions. *)
Definition Vector2D_equiv (p q : Vector2D.t Q) : Prop :=
  Vector2D.x p == Vector2D.x q /\ Vector2D.y p == Vector2D.y q.

Definition scenario_image : ImageInfo.t Q :=
  {| ImageInfo.src := ""; ImageInfo.width := 2000; ImageInfo.height := 1000;
     ImageInfo.name := "photo"; ImageInfo.size := 0 |}.

(** A 12 : 11 target over a 2 : 1 image: the cover layout is a container
    of 450 x 412.5 under an image rendered at 825 x 412.5. *)
Definition scenario_target : CropTarget.t Q :=
  {| CropTarget.id := "mobile"; CropTarget.width := 1200; CropTarget.height := 1100;
     CropTarget.suffix := Some "_S"%string; CropTarget.label := Some "Mobile"%string |}.

Definition scenario_state (zoom : Q) (position : Vector2D.t Q) : AppState Q :=
  {| imageInfo := Some scenario_image;
     dynamicTargets := [scenario_target];
     cropPositions := {[ "mobile"%string := position ]};
     zoomLevels := {[ "mobile"%string := zoom ]};
     targetScales := {[ "mobile"%string := 1 ]};
     croppedImages := ∅;
     isProcessing := false;
     quality := 92 # 100 |}.

(** A portrait image of 1125 x 2000; its "mobile" target is 1125 x 1031,
    rendered 450 x 800 under a container of 450 x 412.4. *)
Definition portrait_image : ImageInfo.t Q :=
  {| ImageInfo.src := "data:"; ImageInfo.width := 1125; ImageInfo.height := 2000;
     ImageInfo.name := "poster"; ImageInfo.size := 12345 |}.

Definition portrait_file : File.t Q :=
  {| File.name := "poster.png"; File.type := "image/png"; File.size := 12345 |}.

Definition text_file : File.t Q :=
  {| File.name := "notes.txt"; File.type := "text/plain"; File.size := 10 |}.

(** A browser in which every export succeeds. *)
Definition obliging_canvas : Canvas Q :=
  {| getContext := fun _ => true;
     toBlob := fun id =>
       Some {| CroppedResult.url := "blob:" +:+ id; CroppedResult.size := 1000 |} |}.

(** A browser whose encoder fails on the second target. *)
Definition failing_canvas : Canvas Q :=
  {| getContext := fun _ => true;
     toBlob := fun id =>
       if String.eqb id "desktop" then None
       else Some {| CroppedResult.url := "blob:" +:+ id; CroppedResult.size := 1000 |} |}.

Definition cropped_state : AppState Q :=
  fst (handleCrop obliging_canvas
         (handleImageUpload (Some ("data:"%string, 1125, 2000)) portrait_file initialState)).

(** Upload of the portrait image, zoom to 2, then a drag far to the left. *)
Definition dragged_state : AppState Q :=
  let s0 := handleImageUpload (Some ("data:"%string, 1125, 2000)) portrait_file initialState in
  let s1 := handleZoomChange "mobile" 2 s0 in
  let d := handleMouseDown (default zeroVector (cropPositions s1 !! "mobile"%string)) 600 300 in
  preview_mouseMove (newTarget 1125 2000 preset_mobile) d (- (1000)) 300 s1.

(** A [drawImage] call without its destination size. *)
Definition sourceOnly (e : Effect) : Effect :=
  match e with
  | DrawImage id sx sy sWidth sHeight _ _ => DrawImage id sx sy sWidth sHeight 0 0
  | _ => e
  end.

Definition crop_alert : string :=
  "An error occurred during cropping. Please check the console.".

(** ** The states the interface can reach

    Uploads deliver images of at least 3 x 1 pixels (below that a floored
    target dimension is 0, and JavaScript's division by zero leaves the
    rationals); the zoom slider delivers values from 1 upwards; zoom,
    drag and scale events come from the preview of a current target. *)
Inductive reachable : AppState Q -> Prop :=
| reach_init : reachable initialState
| reach_upload (s : AppState Q) (file : File.t Q) (src : string) (W Ht : Q) :
    reachable s -> 3 <= W -> 1 <= Ht ->
    reachable (handleImageUpload (Some (src, W, Ht)) file s)
| reach_upload_failed (s : AppState Q) (file : File.t Q) :
    reachable s -> reachable (handleImageUpload None file s)
| reach_zoom (s : AppState Q) (target : CropTarget.t Q) (z : Q) :
    reachable s -> In target (dynamicTargets s) -> 1 <= z ->
    reachable (handleZoomChange (CropTarget.id target) z s)
| reach_drag (s : AppState Q) (target : CropTarget.t Q) (d : DragState Q)
    (clientX clientY : Q) :
    reachable s -> In target (dynamicTargets s) ->
    reachable (preview_mouseMove target d clientX clientY s)
| reach_scale (s : AppState Q) (target : CropTarget.t Q) (scale : Q) :
    reachable s -> In target (dynamicTargets s) ->
    reachable (handleScaleChange (CropTarget.id target) scale s)
| reach_crop (s : AppState Q) (env : Canvas Q) :
    reachable s -> reachable (fst (handleCrop env s))
| reach_reset (s : AppState Q) :
    reachable s -> reachable (resetState s).

(** Target [target] of image [img] is covered in state [s]: it has a zoom
    of at least 1 and a position within the clamp bounds at that zoom. *)
Definition covered (s : AppState Q) (img : ImageInfo.t Q) (target : CropTarget.t Q)
  : Prop :=
  let layout := calculateLayout target img in
  exists (z : Q) (p : Vector2D.t Q),
    zoomLevels s !! CropTarget.id target = Some z /\ 1 <= z /\
    cropPositions s !! CropTarget.id target = Some p /\
    Size.width (PreviewLayout.container layout)
      - Size.width (PreviewLayout.image layout) * z <= Vector2D.x p <= 0 /\
    Size.height (PreviewLayout.container layout)
      - Size.height (PreviewLayout.image layout) * z <= Vector2D.y p <= 0.

Definition covering_invariant (s : AppState Q) : Prop :=
  match imageInfo s with
  | None => dynamicTargets s = []
  | Some img =>
      0 < ImageInfo.width img /\ 0 < ImageInfo.height img /\
      List.NoDup (map CropTarget.id (dynamicTargets s)) /\
      forall target, In target (dynamicTargets s) ->
        0 < CropTarget.width target /\ 0 < CropTarget.height target /\
        covered s img target
  end.

(** The same scenarios in binary64. *)
Definition scenario_image_f64 : ImageInfo.t float :=
  {| ImageInfo.src := ""; ImageInfo.width := 2000%float; ImageInfo.height := 1000%float;
     ImageInfo.name := "photo"; ImageInfo.size := 0%float |}.

Definition scenario_state_f64 (zoom : float) (position : Vector2D.t float)
  : AppState float :=
  {| imageInfo := Some scenario_image_f64;
     dynamicTargets :=
       [ {| CropTarget.id := "mobile";
            CropTarget.width := 1200%float; CropTarget.height := 1100%float;
            CropTarget.suffix := Some "_S"%string;
            CropTarget.label := Some "Mobile"%string |} ];
     cropPositions := {[ "mobile"%string := position ]};
     zoomLevels := {[ "mobile"%string := zoom ]};
     targetScales := {[ "mobile"%string := 1%float ]};
     croppedImages := ∅;
     isProcessing := false;
     quality := (92 / 100)%float |}.

Definition portrait_file_f64 : File.t float :=
  {| File.name := "poster.png"; File.type := "image/png"; File.size := 12345%float |}.

Definition obliging_canvas_f64 : Canvas float :=
  {| getContext := fun _ => true;
     toBlob := fun id =>
       Some {| CroppedResult.url := "blob:" +:+ id; CroppedResult.size := 1000%float |} |}.

(** Upload of the portrait image, zoom to 2, then a drag far to the left,
    in binary64. *)
Definition dragged_state_f64 : AppState float :=
  let s0 := handleImageUpload (Some ("data:"%string, 1125%float, 2000%float))
              portrait_file_f64 initialState in
  let s1 := handleZoomChange "mobile" 2%float s0 in
  let d := handleMouseDown (default zeroVector (cropPositions s1 !! "mobile"%string))
             600%float 300%float in
  preview_mouseMove (newTarget 1125%float 2000%float preset_mobile) d
    (-1000)%float 300%float s1.

(* ===================================================================== *)
(** * Properties                                                          *)
(* ===================================================================== *)

(** Unfold the number interface at its rational instance. *)
Ltac q_ops :=
  cbv beta iota delta
    [of_Z num_add num_sub num_mul num_div num_gt Math_min Math_max Math_abs
     Math_floor Math_round truthy Q_number] in *.

(** ** Rational arithmetic *)

Lemma Qgtb_true (a b : Q) : Qgtb a b = true <-> b < a.
Proof.
  unfold Qgtb. rewrite negb_true_iff, <- not_true_iff_false, Qle_bool_iff.
  split; [apply Qnot_le_lt | apply Qlt_not_le].
Qed.

Lemma Qgtb_false (a b : Q) : Qgtb a b = false <-> a <= b.
Proof. unfold Qgtb. rewrite negb_false_iff. apply Qle_bool_iff. Qed.

Lemma Qfloor_bounds (a : Q) : inject_Z (Qfloor a) <= a /\ a - 1 < inject_Z (Qfloor a).
Proof.
  split; [apply Qfloor_le |].
  pose proof (Qlt_floor a) as Hlt.
  rewrite inject_Z_plus in Hlt. change (inject_Z 1) with 1 in Hlt. lra.
Qed.

Lemma Qdiv_mult_cancel (a r : Q) : 0 < r -> r * (a / r) == a.
Proof. intros Hr. field. lra. Qed.

Lemma Qdiv_pos (a r : Q) : 0 < a -> 0 < r -> 0 < a / r.
Proof. intros Ha Hr. apply Qlt_shift_div_l; lra. Qed.

(** ** Target fitting *)

Lemma newTarget_refit (W Ht : Q) (preset : CropPreset.t Q) :
  let r := CropPreset.baseWidth preset / CropPreset.baseHeight preset in
  Ht < W / r ->
  CropTarget.width (newTarget W Ht preset) = inject_Z (Qfloor (Ht * r)) /\
  CropTarget.height (newTarget W Ht preset) = inject_Z (Qfloor Ht).
Proof.
  intros r Hlt. unfold newTarget. q_ops. fold r.
  apply Qgtb_true in Hlt. rewrite Hlt. split; reflexivity.
Qed.

Lemma newTarget_by_width (W Ht : Q) (preset : CropPreset.t Q) :
  let r := CropPreset.baseWidth preset / CropPreset.baseHeight preset in
  W / r <= Ht ->
  CropTarget.width (newTarget W Ht preset) = inject_Z (Qfloor W) /\
  CropTarget.height (newTarget W Ht preset) = inject_Z (Qfloor (W / r)).
Proof.
  intros r Hle. unfold newTarget. q_ops. fold r.
  apply Qgtb_false in Hle. rewrite Hle. split; reflexivity.
Qed.

(** C1: the fit loses a pixel to rounding.  For an image of 3165 x 2901
    and the 1055/967 preset the width-first candidate is (3165, 2901)
    exactly, and fits; but in binary64 [3165 / (1055 / 967)] evaluates to
    2901.0000000000005, which exceeds 2901, so the code refits by height,
    and [2901 * (1055 / 967)] evaluates to 3164.9999999999995, whose
    floor is 3164.  An image of 4000 x 2901, whose refit is the code's
    stated policy, loses the same pixel.  In both cases the policy,
    evaluated exactly, yields (3165, 2901). *)
Theorem C1_fit_loses_a_pixel :
  (CropTarget.width (newTarget 3165%float 2901%float preset_mobile),
   CropTarget.height (newTarget 3165%float 2901%float preset_mobile))
  = (3164%float, 2901%float) /\
  (CropTarget.width (newTarget 4000%float 2901%float preset_mobile),
   CropTarget.height (newTarget 4000%float 2901%float preset_mobile))
  = (3164%float, 2901%float) /\
  (3165 / (1055 / 967))%float = 0x1.6aa0000000001p+11%float /\
  (2901 * (1055 / 967))%float = 0x1.8b9ffffffffffp+11%float /\
  3165 / (1055 / 967) == 2901 /\
  2901 * (1055 / 967) == 3165 /\
  (CropTarget.width (newTarget 3165 2901 preset_mobile),
   CropTarget.height (newTarget 3165 2901 preset_mobile)) = (3165, 2901) /\
  (CropTarget.width (newTarget 4000 2901 preset_mobile),
   CropTarget.height (newTarget 4000 2901 preset_mobile)) = (3165, 2901).
Proof.
  split; [vm_compute; reflexivity |].
  split; [vm_compute; reflexivity |].
  split; [vm_compute; reflexivity |].
  split; [vm_compute; reflexivity |].
  split; [reflexivity |].
  split; [reflexivity |].
  split; reflexivity.
Qed.

(** ** Cover layout *)

Section CoverLayout.
Variables (target : CropTarget.t Q) (img : ImageInfo.t Q).
Let rt := CropTarget.width target / CropTarget.height target.
Let ri := ImageInfo.width img / ImageInfo.height img.
Let layout := calculateLayout target img.

Lemma calculateLayout_container :
  Size.width (PreviewLayout.container layout) = 450 /\
  Size.height (PreviewLayout.container layout) = 450 / rt.
Proof.
  subst layout. unfold calculateLayout.
  destruct (num_gt _ _); split; reflexivity.
Qed.

Lemma calculateLayout_by_height :
  rt < ri ->
  Size.height (PreviewLayout.image layout) = 450 / rt /\
  Size.width (PreviewLayout.image layout) = 450 / rt * ri.
Proof.
  intros Hlt. apply Qgtb_true in Hlt.
  subst layout. unfold calculateLayout. q_ops.
  fold rt ri. rewrite Hlt. split; reflexivity.
Qed.

Lemma calculateLayout_by_width :
  ri <= rt ->
  Size.width (PreviewLayout.image layout) = 450 /\
  Size.height (PreviewLayout.image layout) = 450 / ri.
Proof.
  intros Hle. apply Qgtb_false in Hle.
  subst layout. unfold calculateLayout. q_ops.
  fold rt ri. rewrite Hle. split; reflexivity.
Qed.

Hypothesis target_width_pos : 0 < CropTarget.width target.
Hypothesis target_height_pos : 0 < CropTarget.height target.
Hypothesis image_width_pos : 0 < ImageInfo.width img.
Hypothesis image_height_pos : 0 < ImageInfo.height img.

Lemma target_ratio_pos : 0 < rt.
Proof. apply Qdiv_pos; assumption. Qed.

Lemma image_ratio_pos : 0 < ri.
Proof. apply Qdiv_pos; assumption. Qed.

(** The rendered image covers the container. *)
Lemma calculateLayout_covers :
  Size.width (PreviewLayout.container layout)
    <= Size.width (PreviewLayout.image layout) /\
  Size.height (PreviewLayout.container layout)
    <= Size.height (PreviewLayout.image layout).
Proof.
  destruct calculateLayout_container as [HCw HCh]. rewrite HCw, HCh.
  pose proof target_ratio_pos as Hrt. pose proof image_ratio_pos as Hri.
  pose proof (Qdiv_mult_cancel 450 rt Hrt) as Hc.
  pose proof (Qdiv_pos 450 rt eq_refl Hrt) as Hcpos.
  destruct (Qlt_le_dec rt ri) as [Hlt | Hle].
  - destruct (calculateLayout_by_height Hlt) as [Hh Hw]. rewrite Hh, Hw.
    set (c := 450 / rt) in *. clearbody c. split; nra.
  - destruct (calculateLayout_by_width Hle) as [Hw Hh]. rewrite Hh, Hw.
    pose proof (Qdiv_mult_cancel 450 ri Hri) as Ha.
    set (c := 450 / rt) in *. set (a := 450 / ri) in *. clearbody c a.
    split; nra.
Qed.

(** The rendered image has the aspect ratio of the original. *)
Lemma calculateLayout_image_ratio :
  Size.width (PreviewLayout.image layout)
    == Size.height (PreviewLayout.image layout) * ri.
Proof.
  pose proof image_ratio_pos as Hri.
  destruct (Qlt_le_dec rt ri) as [Hlt | Hle].
  - destruct (calculateLayout_by_height Hlt) as [Hh Hw]. rewrite Hh, Hw. reflexivity.
  - destruct (calculateLayout_by_width Hle) as [Hw Hh]. rewrite Hh, Hw.
    field. lra.
Qed.

Lemma calculateLayout_image_pos :
  0 < Size.width (PreviewLayout.image layout) /\
  0 < Size.height (PreviewLayout.image layout).
Proof.
  destruct calculateLayout_covers as [Hw Hh].
  destruct calculateLayout_container as [HCw HCh]. rewrite HCw in Hw. rewrite HCh in Hh.
  pose proof (Qdiv_pos 450 rt eq_refl target_ratio_pos).
  split; lra.
Qed.
End CoverLayout.

(** C2 does not hold in its scenario.  For container width
    450, target 1091 x 1000 and image 2000 x 1000 the rendered height is
    not 412.5 and the rendered width is not 825. *)
Lemma C2_scenario_values_differ :
  ~ (Size.height (PreviewLayout.image
        (calculateLayout (newTarget 2000 1000 preset_mobile) scenario_image))
       == 4125 # 10 /\
     Size.width (PreviewLayout.image
        (calculateLayout (newTarget 2000 1000 preset_mobile) scenario_image))
       == 825).
Proof. vm_compute. intros [Hh _]. discriminate Hh. Qed.

(** C2, amended.  For a target and an image of positive dimensions the
    container is 450 wide and [450 / r_t] high; when [r_i > r_t] the
    image is rendered [Ch] high and [Ch * r_i] wide, otherwise [Cw] wide
    and [Cw / r_i] high; either way it covers the container.  For target
    1091 x 1000 and image 2000 x 1000 the rendered height is 450000/1091
    (about 412.47, within 0.05 of 412.5) and the rendered width
    900000/1091 (about 824.93, within 0.1 of 825). *)
Theorem C2_cover_layout :
  (forall (target : CropTarget.t Q) (img : ImageInfo.t Q),
      0 < CropTarget.width target -> 0 < CropTarget.height target ->
      0 < ImageInfo.width img -> 0 < ImageInfo.height img ->
      let rt := CropTarget.width target / CropTarget.height target in
      let ri := ImageInfo.width img / ImageInfo.height img in
      let layout := calculateLayout target img in
      let Cw := Size.width (PreviewLayout.container layout) in
      let Ch := Size.height (PreviewLayout.container layout) in
      let renderWidth := Size.width (PreviewLayout.image layout) in
      let renderHeight := Size.height (PreviewLayout.image layout) in
      Cw = 450 /\ Ch = Cw / rt /\
      (rt < ri -> renderHeight = Ch /\ renderWidth = Ch * ri) /\
      (~ rt < ri -> renderWidth = Cw /\ renderHeight = Cw / ri) /\
      Cw <= renderWidth /\ Ch <= renderHeight) /\
  Size.height (PreviewLayout.image
     (calculateLayout (newTarget 2000 1000 preset_mobile) scenario_image))
    == 450000 # 1091 /\
  Size.width (PreviewLayout.image
     (calculateLayout (newTarget 2000 1000 preset_mobile) scenario_image))
    == 900000 # 1091 /\
  (4125 # 10) - (5 # 100) < 450000 # 1091 < 4125 # 10 /\
  825 - (1 # 10) < 900000 # 1091 < 825.
Proof.
  split; [| repeat split; vm_compute; reflexivity].
  intros target img Htw Hth HW HH rt ri layout Cw Ch renderWidth renderHeight.
  destruct (calculateLayout_container target img) as [HCw HCh].
  subst Cw Ch renderWidth renderHeight layout. rewrite HCw, HCh.
  split; [reflexivity |]. split; [reflexivity |].
  split; [intros Hlt; apply calculateLayout_by_height; exact Hlt |].
  split; [intros Hge; apply calculateLayout_by_width, Qnot_lt_le; exact Hge |].
  rewrite <- HCw at 1. rewrite <- HCh at 1.
  apply calculateLayout_covers; assumption.
Qed.

Lemma C2_cover_layout_witness :
  450 <= Size.width (PreviewLayout.image
           (calculateLayout (newTarget 2000 1000 preset_mobile) scenario_image)).
Proof.
  pose proof (proj1 C2_cover_layout (newTarget 2000 1000 preset_mobile) scenario_image)
    as Hcover.
  cbv zeta in Hcover.
  destruct Hcover as (HCw & _ & _ & _ & Hw & _); [reflexivity .. |].
  rewrite HCw in Hw. exact Hw.
Defined.

(** ** Pan clamping *)

Lemma clamp_bounds (m v : Q) : m <= 0 -> m <= Qmin 0 (Qmax m v) <= 0.
Proof.
  intros Hm. split.
  - apply Q.min_glb; [exact Hm | apply Q.le_max_l].
  - apply Q.le_min_l.
Qed.

Lemma clamp_fixes (m v : Q) : m <= v <= 0 -> Qmin 0 (Qmax m v) == v.
Proof.
  intros [Hlo Hhi].
  rewrite (Q.max_r m v Hlo). apply Q.min_r. exact Hhi.
Qed.

Lemma clampPosition_bounds (container image : Size.t Q) (pos : Vector2D.t Q) :
  Size.width container <= Size.width image ->
  Size.height container <= Size.height image ->
  Size.width container - Size.width image
    <= Vector2D.x (clampPosition container image pos) <= 0 /\
  Size.height container - Size.height image
    <= Vector2D.y (clampPosition container image pos) <= 0.
Proof.
  intros Hw Hh. unfold clampPosition. q_ops. cbn [Vector2D.x Vector2D.y].
  split; apply clamp_bounds; lra.
Qed.

Lemma handleZoomChange_unfold (id : string) (newZoom : Q) (s : AppState Q)
    (img : ImageInfo.t Q) (target : CropTarget.t Q) :
  imageInfo s = Some img ->
  List.find (fun t => String.eqb (CropTarget.id t) id) (dynamicTargets s) = Some target ->
  let layout := calculateLayout target img in
  let container := PreviewLayout.container layout in
  let oldZoom := or_default (zoomLevels s !! id) 1 in
  let pos := default zeroVector (cropPositions s !! id) in
  let pre :=
    {| Vector2D.x := Size.width container / 2
                     - (Size.width container / 2 - Vector2D.x pos) * (newZoom / oldZoom);
       Vector2D.y := Size.height container / 2
                     - (Size.height container / 2 - Vector2D.y pos) * (newZoom / oldZoom) |} in
  let zoomed :=
    {| Size.width := Size.width (PreviewLayout.image layout) * newZoom;
       Size.height := Size.height (PreviewLayout.image layout) * newZoom |} in
  cropPositions (handleZoomChange id newZoom s) !! id
    = Some (clampPosition container zoomed pre) /\
  zoomLevels (handleZoomChange id newZoom s) !! id = Some newZoom /\
  imageInfo (handleZoomChange id newZoom s) = imageInfo s /\
  dynamicTargets (handleZoomChange id newZoom s) = dynamicTargets s.
Proof.
  intros Himg Hfind. cbv zeta.
  unfold handleZoomChange. rewrite Himg, Hfind.
  unfold setCropPositions, setZoomLevels.
  cbn [cropPositions zoomLevels imageInfo dynamicTargets].
  rewrite !lookup_insert_eq. repeat split; try assumption.
Qed.

(** At a zoom of at least 1 the zoomed image still covers the container. *)
Lemma zoomed_layout_covers (target : CropTarget.t Q) (img : ImageInfo.t Q) (z : Q) :
  0 < CropTarget.width target -> 0 < CropTarget.height target ->
  0 < ImageInfo.width img -> 0 < ImageInfo.height img ->
  1 <= z ->
  let layout := calculateLayout target img in
  Size.width (PreviewLayout.container layout)
    <= Size.width (PreviewLayout.image layout) * z /\
  Size.height (PreviewLayout.container layout)
    <= Size.height (PreviewLayout.image layout) * z.
Proof.
  intros Htw Hth HW HH Hz layout.
  destruct (calculateLayout_covers target img Htw Hth HW HH) as [Hw Hh].
  destruct (calculateLayout_image_pos target img Htw Hth HW HH) as [HIw HIh].
  fold layout in Hw, Hh, HIw, HIh.
  set (Iw := Size.width (PreviewLayout.image layout)) in *.
  set (Ih := Size.height (PreviewLayout.image layout)) in *.
  clearbody Iw Ih. split; nra.
Qed.

(** C3.  Against a rendered image at least as large as the container,
    [clampPosition] returns [(min(0, max(Cw - Iw, x)), min(0, max(Ch - Ih,
    y)))], which lies in [[Cw - Iw, 0] x [Ch - Ih, 0]].  A mouse move of
    a drag stores the clamp of the dragged position against the layout
    shown (the cover layout at the current zoom), and a zoom change
    stores the clamp of its repositioned position, [centre - (centre -
    position) * (newZoom / oldZoom)], against the cover layout at the new
    zoom; for a target and an image of positive dimensions and a zoom of
    at least 1 the stored position is within the bounds of that layout. *)
Theorem C3_pan_clamping :
  (forall (container image : Size.t Q) (pos : Vector2D.t Q),
      Size.width container <= Size.width image ->
      Size.height container <= Size.height image ->
      let minX := Size.width container - Size.width image in
      let minY := Size.height container - Size.height image in
      let p := clampPosition container image pos in
      Vector2D.x p = Qmin 0 (Qmax minX (Vector2D.x pos)) /\
      Vector2D.y p = Qmin 0 (Qmax minY (Vector2D.y pos)) /\
      minX <= Vector2D.x p <= 0 /\ minY <= Vector2D.y p <= 0) /\
  (forall (target : CropTarget.t Q) (d : DragState Q) (clientX clientY : Q)
          (s : AppState Q) (img : ImageInfo.t Q),
      imageInfo s = Some img -> isDragging d = true ->
      let container := fst (displayLayout target img s) in
      let image := snd (displayLayout target img s) in
      let p := clampPosition container image
                 {| Vector2D.x := clientX - Vector2D.x (dragStart d);
                    Vector2D.y := clientY - Vector2D.y (dragStart d) |} in
      cropPositions (preview_mouseMove target d clientX clientY s) !! CropTarget.id target
      = Some p /\
      (0 < CropTarget.width target -> 0 < CropTarget.height target ->
       0 < ImageInfo.width img -> 0 < ImageInfo.height img ->
       1 <= or_default (zoomLevels s !! CropTarget.id target) 1 ->
       Size.width container - Size.width image <= Vector2D.x p <= 0 /\
       Size.height container - Size.height image <= Vector2D.y p <= 0)) /\
  (forall (id : string) (newZoom : Q) (s : AppState Q) (img : ImageInfo.t Q)
          (target : CropTarget.t Q),
      imageInfo s = Some img ->
      List.find (fun t => String.eqb (CropTarget.id t) id) (dynamicTargets s) = Some target ->
      let layout := calculateLayout target img in
      let container := PreviewLayout.container layout in
      let image :=
        {| Size.width := Size.width (PreviewLayout.image layout) * newZoom;
           Size.height := Size.height (PreviewLayout.image layout) * newZoom |} in
      let oldZoom := or_default (zoomLevels s !! id) 1 in
      let pos := default zeroVector (cropPositions s !! id) in
      let pre :=
        {| Vector2D.x := Size.width container / 2
                         - (Size.width container / 2 - Vector2D.x pos) * (newZoom / oldZoom);
           Vector2D.y := Size.height container / 2
                         - (Size.height container / 2 - Vector2D.y pos) * (newZoom / oldZoom) |} in
      cropPositions (handleZoomChange id newZoom s) !! id
      = Some (clampPosition container image pre) /\
      (0 < CropTarget.width target -> 0 < CropTarget.height target ->
       0 < ImageInfo.width img -> 0 < ImageInfo.height img ->
       1 <= newZoom ->
       Size.width container - Size.width image
         <= Vector2D.x (clampPosition container image pre) <= 0 /\
       Size.height container - Size.height image
         <= Vector2D.y (clampPosition container image pre) <= 0)).
Proof.
  split; [| split].
  - intros container image pos Hw Hh minX minY p.
    split; [reflexivity |]. split; [reflexivity |].
    apply clampPosition_bounds; assumption.
  - intros target d clientX clientY s img Himg Hdrag container image p. split.
    + unfold preview_mouseMove, handleMouseMove. rewrite Himg, Hdrag.
      unfold displayLayout, handlePositionChange, setCropPositions.
      cbn [negb cropPositions fst snd]. apply lookup_insert_eq.
    + intros Htw Hth HW HH Hz.
      destruct (zoomed_layout_covers target img _ Htw Hth HW HH Hz) as [Hw Hh].
      apply clampPosition_bounds; assumption.
  - intros id newZoom s img target Himg Hfind layout container image oldZoom pos pre.
    destruct (handleZoomChange_unfold id newZoom s img target Himg Hfind) as [Hpos _].
    split; [exact Hpos |].
    intros Htw Hth HW HH Hz.
    destruct (zoomed_layout_covers target img newZoom Htw Hth HW HH Hz) as [Hw Hh].
    apply clampPosition_bounds; assumption.
Qed.

Lemma C3_pan_clamping_witness :
  - (375) <= Vector2D.x (clampPosition {| Size.width := 450; Size.height := 4125 # 10 |}
                           {| Size.width := 825; Size.height := 4125 # 10 |}
                           {| Vector2D.x := - (1000); Vector2D.y := 30 |}) <= 0.
Proof.
  pose proof (proj1 C3_pan_clamping {| Size.width := 450; Size.height := 4125 # 10 |}
                {| Size.width := 825; Size.height := 4125 # 10 |}
                {| Vector2D.x := - (1000); Vector2D.y := 30 |}) as Hclamp.
  cbv zeta in Hclamp.
  destruct Hclamp as (_ & _ & Hx & _); [vm_compute; discriminate .. |].
  exact Hx.
Defined.

(** ** Zoom-anchored repositioning *)

Lemma or_default_pos (z d : Q) : 0 < z -> or_default (Some z) d = z.
Proof.
  intros Hz. unfold or_default. q_ops.
  destruct (Qeq_bool z 0) eqn:Heq; [| reflexivity].
  apply Qeq_bool_iff in Heq. lra.
Qed.

Lemma handleZoomChange_spec (id : string) (z_old z_new : Q) (p : Vector2D.t Q)
    (s : AppState Q) (img : ImageInfo.t Q) (target : CropTarget.t Q) :
  imageInfo s = Some img ->
  List.find (fun t => String.eqb (CropTarget.id t) id) (dynamicTargets s) = Some target ->
  zoomLevels s !! id = Some z_old -> 0 < z_old ->
  cropPositions s !! id = Some p ->
  let layout := calculateLayout target img in
  cropPositions (handleZoomChange id z_new s) !! id
  = Some (spec_zoom_reposition
            (Size.width (PreviewLayout.container layout))
            (Size.height (PreviewLayout.container layout))
            (Size.width (PreviewLayout.image layout))
            (Size.height (PreviewLayout.image layout))
            p z_old z_new).
Proof.
  intros Himg Hfind Hzoom Hpos Hp layout.
  destruct (handleZoomChange_unfold id z_new s img target Himg Hfind) as [Hnew _].
  rewrite Hnew, Hzoom, Hp, (or_default_pos z_old 1 Hpos). reflexivity.
Qed.

(** C4.  When target [id] has zoom [z_old > 0] and position [p], a zoom
    change to [z_new] stores [centre - (centre - p) * (z_new / z_old)]
    clamped against the rendered size times [z_new], and records
    [z_new].  With container 450 x 412.5, rendered image 825 x 412.5,
    position (-100, -50) and zoom 1 -> 1.5, the anchored position is
    (-262.5, -178.125); it lies within the bounds -787.5 and -206.25 of
    the zoomed size (1237.5, 618.75), and the clamp keeps it. *)
Theorem C4_zoom_anchored_repositioning :
  (forall (id : string) (z_old z_new : Q) (p : Vector2D.t Q)
          (s : AppState Q) (img : ImageInfo.t Q) (target : CropTarget.t Q),
      imageInfo s = Some img ->
      List.find (fun t => String.eqb (CropTarget.id t) id) (dynamicTargets s) = Some target ->
      zoomLevels s !! id = Some z_old -> 0 < z_old ->
      cropPositions s !! id = Some p ->
      let layout := calculateLayout target img in
      let Cw := Size.width (PreviewLayout.container layout) in
      let Ch := Size.height (PreviewLayout.container layout) in
      let Iw := Size.width (PreviewLayout.image layout) in
      let Ih := Size.height (PreviewLayout.image layout) in
      cropPositions (handleZoomChange id z_new s) !! id
      = Some (spec_clamp Cw Ch (Iw * z_new) (Ih * z_new)
                (spec_zoom_anchor Cw Ch p z_old z_new)) /\
      zoomLevels (handleZoomChange id z_new s) !! id = Some z_new) /\
  (let layout := calculateLayout scenario_target scenario_image in
   let s := scenario_state 1 {| Vector2D.x := - (100); Vector2D.y := - (50) |} in
   let anchored :=
     spec_zoom_anchor 450 (4125 # 10)
       {| Vector2D.x := - (100); Vector2D.y := - (50) |} 1 (3 # 2) in
   Size.width (PreviewLayout.container layout) == 450 /\
   Size.height (PreviewLayout.container layout) == 4125 # 10 /\
   Size.width (PreviewLayout.image layout) == 825 /\
   Size.height (PreviewLayout.image layout) == 4125 # 10 /\
   Vector2D_equiv anchored {| Vector2D.x := - (2625 # 10); Vector2D.y := - (178125 # 1000) |} /\
   450 - (12375 # 10) <= Vector2D.x anchored <= 0 /\
   (4125 # 10) - (61875 # 100) <= Vector2D.y anchored <= 0 /\
   exists p' : Vector2D.t Q,
     cropPositions (handleZoomChange "mobile" (3 # 2) s) !! "mobile"%string = Some p' /\
     Vector2D_equiv p' anchored).
Proof.
  split.
  - intros id z_old z_new p s img target Himg Hfind Hzoom Hpos Hp layout Cw Ch Iw Ih.
    split.
    + apply (handleZoomChange_spec id z_old z_new p s img target); assumption.
    + apply (handleZoomChange_unfold id z_new s img target Himg Hfind).
  - cbv zeta. repeat split; try (vm_compute; reflexivity); try (vm_compute; discriminate).
    eexists. split; [vm_compute; reflexivity |].
    split; vm_compute; reflexivity.
Qed.

Lemma C4_zoom_anchored_repositioning_witness :
  zoomLevels (handleZoomChange "mobile" (3 # 2)
                (scenario_state 1 {| Vector2D.x := - (100); Vector2D.y := - (50) |}))
    !! "mobile"%string = Some (3 # 2).
Proof.
  refine (proj2 (proj1 C4_zoom_anchored_repositioning "mobile"%string 1 (3 # 2)
                   {| Vector2D.x := - (100); Vector2D.y := - (50) |}
                   (scenario_state 1 {| Vector2D.x := - (100); Vector2D.y := - (50) |})
                   scenario_image scenario_target _ _ _ _ _));
    reflexivity.
Defined.

(** ** Source rectangle *)

Lemma Qround_half_up_bounds (a : Q) :
  a - (1 # 2) < inject_Z (Qround_half_up a) <= a + (1 # 2).
Proof.
  unfold Qround_half_up.
  destruct (Qfloor_bounds (a + (1 # 2))) as [Hle Hlt]. split; lra.
Qed.

Lemma Qround_half_up_nonneg (a : Q) : 0 <= a -> (0 <= Qround_half_up a)%Z.
Proof.
  intros Ha. unfold Qround_half_up.
  change 0%Z with (Qfloor 0). apply Qfloor_resp_le. lra.
Qed.

Section SourceRectangle.
Variables (target : CropTarget.t Q) (img : ImageInfo.t Q) (z : Q) (p : Vector2D.t Q).
Let layout := calculateLayout target img.
Let Cw := Size.width (PreviewLayout.container layout).
Let Ch := Size.height (PreviewLayout.container layout).
Let Iw := Size.width (PreviewLayout.image layout).
Let Ih := Size.height (PreviewLayout.image layout).
Let W := ImageInfo.width img.
Let Ht := ImageInfo.height img.

Hypothesis target_width_pos : 0 < CropTarget.width target.
Hypothesis target_height_pos : 0 < CropTarget.height target.
Hypothesis image_width_pos : 0 < W.
Hypothesis image_height_pos : 0 < Ht.
Hypothesis x_clamped : Cw - Iw * z <= Vector2D.x p <= 0.
Hypothesis y_clamped : Ch - Ih * z <= Vector2D.y p <= 0.

Lemma sourceRectangle_eq :
  let f := W / (Iw * z) in
  sourceRectangle img layout z p
  = (Qabs (Vector2D.x p) * f, Qabs (Vector2D.y p) * f, Cw * f, Ch * f).
Proof. reflexivity. Qed.

(** Before rounding, the source rectangle lies inside the image. *)
Lemma sourceRectangle_contained :
  let '(sx, sy, sw, sh) := sourceRectangle img layout z p in
  0 <= sx /\ 0 <= sy /\ 0 <= sw /\ 0 <= sh /\ sx + sw <= W /\ sy + sh <= Ht.
Proof.
  rewrite sourceRectangle_eq. cbv zeta.
  destruct (calculateLayout_image_pos target img) as [HIw HIh]; try assumption.
  destruct (calculateLayout_covers target img) as [HcW HcH]; try assumption.
  destruct (calculateLayout_container target img) as [HCw HCh].
  pose proof (calculateLayout_image_ratio target img image_width_pos image_height_pos)
    as Hratio.
  pose proof (target_ratio_pos target target_width_pos target_height_pos) as Hrt.
  pose proof (image_ratio_pos img image_width_pos image_height_pos) as Hri.
  pose proof (Qdiv_mult_cancel W Ht image_height_pos) as HriW.
  fold layout Iw Ih W Ht in HIw, HIh, Hratio, Hri, HriW.
  fold layout Cw Ch Iw Ih in HcW, HcH.
  assert (HCwpos : 0 < Cw) by (subst Cw layout; rewrite HCw; reflexivity).
  assert (HChpos : 0 < Ch).
  { subst Ch layout. rewrite HCh. apply Qdiv_pos; [reflexivity | exact Hrt]. }
  assert (Hden : 0 < Iw * z) by nra.
  pose proof (Qdiv_mult_cancel W (Iw * z) Hden) as Hf.
  pose proof (Qdiv_pos W (Iw * z) image_width_pos Hden) as Hfpos.
  destruct x_clamped as [Hxlo Hxhi]. destruct y_clamped as [Hylo Hyhi].
  rewrite (Qabs_neg _ Hxhi), (Qabs_neg _ Hyhi).
  set (f := W / (Iw * z)) in *.
  set (ri := W / Ht) in *.
  assert (Hg : Ih * z * f == Ht).
  { assert (Hprod : ri * (Ih * z * f) == ri * Ht).
    { pose proof Hf as Hf'. rewrite Hratio in Hf'.
      rewrite (Qmult_comm ri Ht), HriW, <- Hf'. ring. }
    apply (Qmult_inj_l _ _ ri); [lra | exact Hprod]. }
  clearbody f ri.
  set (x := Vector2D.x p) in *. set (y := Vector2D.y p) in *.
  clearbody x y Cw Ch Iw Ih W Ht.
  repeat split; try nra.
Qed.

(** After rounding, the right and bottom edges are at most one pixel
    beyond the image. *)
Lemma drawImageSource_within_one :
  let '(rx, ry, rw, rh) := drawImageSource img layout z p in
  (0 <= rx)%Z /\ (0 <= ry)%Z /\ (0 <= rw)%Z /\ (0 <= rh)%Z /\
  inject_Z (rx + rw) <= W + 1 /\ inject_Z (ry + rh) <= Ht + 1.
Proof.
  pose proof sourceRectangle_contained as Hin.
  unfold drawImageSource.
  destruct (sourceRectangle img layout z p) as [[[sx sy] sw] sh].
  destruct Hin as (Hsx & Hsy & Hsw & Hsh & Hw & Hh).
  q_ops.
  pose proof (Qround_half_up_bounds sx) as [_ Hrx].
  pose proof (Qround_half_up_bounds sy) as [_ Hry].
  pose proof (Qround_half_up_bounds sw) as [_ Hrw].
  pose proof (Qround_half_up_bounds sh) as [_ Hrh].
  rewrite !inject_Z_plus.
  repeat split; try (apply Qround_half_up_nonneg; assumption); lra.
Qed.
End SourceRectangle.

(** The rounded rectangle can leave the image.  At zoom 2 with the image
    dragged fully to the left (x = -450, inside the clamp bounds) the
    rounded source rectangle starts at column 563 and is 563 wide, so it
    ends at 1126, beyond the image's 1125 columns. *)
Lemma rounded_rectangle_exceeds_width :
  let target := newTarget 1125 2000 preset_mobile in
  let layout := calculateLayout target portrait_image in
  let z := 2 in
  let p := {| Vector2D.x := - (450); Vector2D.y := 0 |} in
  (1 <= z /\
   Size.width (PreviewLayout.container layout)
     - Size.width (PreviewLayout.image layout) * z <= Vector2D.x p <= 0 /\
   Size.height (PreviewLayout.container layout)
     - Size.height (PreviewLayout.image layout) * z <= Vector2D.y p <= 0) /\
  drawImageSource portrait_image layout z p = (563, 0, 563, 516)%Z /\
  ~ (inject_Z (563 + 563) <= ImageInfo.width portrait_image).
Proof.
  cbv zeta. repeat split; try (vm_compute; reflexivity); try (vm_compute; discriminate).
  vm_compute. intros Hle. apply Hle. reflexivity.
Qed.

(** The same rectangle is drawn in a state reached through the handlers:
    upload, zoom to 2, drag to the left edge, crop. *)
Example crop_after_drag_exceeds_width :
  snd (handleCrop obliging_canvas dragged_state)
  = [DrawImage "mobile" 563 742 563 516 1125 1031;
     DrawImage "desktop" 0 759 1125 483 1125 483].
Proof. vm_compute. reflexivity. Qed.

(** ** Zoom round trip *)

(** One coordinate: container extent [C], rendered extent [I] at zoom 1,
    position [v]. *)
Section RoundTrip1D.
Variables (C I z z' v : Q).
Hypothesis z_pos : 0 < z.
Hypothesis z'_pos : 0 < z'.

Let a := C / 2 - (C / 2 - v) * (z' / z).

Lemma anchor_round_trip : C / 2 - (C / 2 - a) * (z / z') == v.
Proof. subst a. field. split; lra. Qed.

Hypothesis v_clamped : C - I * z <= v <= 0.

Lemma clamp_round_trip :
  C - I * z' <= a <= 0 ->
  Qmin 0 (Qmax (C - I * z)
            (C / 2 - (C / 2 - Qmin 0 (Qmax (C - I * z') a)) * (z / z'))) == v.
Proof.
  intros Ha.
  rewrite (clamp_fixes (C - I * z') a Ha), anchor_round_trip.
  apply clamp_fixes. exact v_clamped.
Qed.

(** Zooming in never pushes the anchored position out of bounds. *)
Lemma anchor_zoom_in_bounds : 0 <= C -> z <= z' -> C - I * z' <= a <= 0.
Proof.
  intros HC Hzz. destruct v_clamped as [Hlo Hhi].
  pose proof (Qdiv_mult_cancel z' z z_pos) as Hk.
  assert (Hc2 : 2 * (C / 2) == C) by field.
  subst a. set (k := z' / z) in *. set (c := C / 2) in *. clearbody k c.
  assert (Hk1 : 1 <= k) by nra.
  assert (Hc : 0 <= c * (k - 1)) by (apply Qmult_le_0_compat; lra).
  assert (Hx : 0 <= k * (v - (C - I * z))) by (apply Qmult_le_0_compat; lra).
  assert (HI : I * z' == I * z * k) by (rewrite <- Hk; ring).
  split.
  - rewrite HI. nra.
  - nra.
Qed.
End RoundTrip1D.

Section RoundTrip.
Variables (id : string) (z z' : Q) (p : Vector2D.t Q).
Variables (s : AppState Q) (img : ImageInfo.t Q) (target : CropTarget.t Q).
Let layout := calculateLayout target img.
Let Cw := Size.width (PreviewLayout.container layout).
Let Ch := Size.height (PreviewLayout.container layout).
Let Iw := Size.width (PreviewLayout.image layout).
Let Ih := Size.height (PreviewLayout.image layout).

Hypothesis image_loaded : imageInfo s = Some img.
Hypothesis target_found :
  List.find (fun t => String.eqb (CropTarget.id t) id) (dynamicTargets s) = Some target.
Hypothesis zoom_stored : zoomLevels s !! id = Some z.
Hypothesis position_stored : cropPositions s !! id = Some p.
Hypothesis z_pos : 0 < z.
Hypothesis z'_pos : 0 < z'.

Lemma zoom_twice :
  cropPositions (handleZoomChange id z (handleZoomChange id z' s)) !! id
  = Some (spec_zoom_reposition Cw Ch Iw Ih
            (spec_zoom_reposition Cw Ch Iw Ih p z z') z' z) /\
  zoomLevels (handleZoomChange id z (handleZoomChange id z' s)) !! id = Some z.
Proof.
  destruct (handleZoomChange_unfold id z' s img target image_loaded target_found)
    as (_ & Hz1 & Himg1 & Htargets1).
  pose proof (handleZoomChange_spec id z z' p s img target
                image_loaded target_found zoom_stored z_pos position_stored) as Hp1.
  rewrite image_loaded in Himg1. rewrite <- Htargets1 in target_found.
  split.
  - apply (handleZoomChange_spec id z' z _ _ img target); assumption.
  - apply (handleZoomChange_unfold id z _ img target Himg1 target_found).
Qed.

Hypothesis x_clamped : Cw - Iw * z <= Vector2D.x p <= 0.
Hypothesis y_clamped : Ch - Ih * z <= Vector2D.y p <= 0.

Lemma zoom_round_trip_unclamped :
  Cw - Iw * z' <= Vector2D.x (spec_zoom_anchor Cw Ch p z z') <= 0 ->
  Ch - Ih * z' <= Vector2D.y (spec_zoom_anchor Cw Ch p z z') <= 0 ->
  Vector2D_equiv
    (spec_zoom_reposition Cw Ch Iw Ih (spec_zoom_reposition Cw Ch Iw Ih p z z') z' z) p.
Proof.
  intros Hax Hay.
  unfold spec_zoom_reposition, spec_zoom_anchor, spec_clamp, Vector2D_equiv in *.
  cbn [Vector2D.x Vector2D.y] in *.
  split; apply clamp_round_trip; assumption.
Qed.
End RoundTrip.

(** C6.  Let target [id] have zoom [z > 0] and a position [p] within the
    clamp bounds at zoom [z].  Zooming to [z' > 0] and back to [z]
    restores the zoom level and, whenever the first step is not clamped,
    the position (up to the representation of fractions).  The first step
    is never clamped when it zooms in ([z <= z']) on a target of positive
    dimensions. *)
Theorem C6_zoom_round_trip (id : string) (z z' : Q) (p : Vector2D.t Q)
    (s : AppState Q) (img : ImageInfo.t Q) (target : CropTarget.t Q) :
  imageInfo s = Some img ->
  List.find (fun t => String.eqb (CropTarget.id t) id) (dynamicTargets s) = Some target ->
  zoomLevels s !! id = Some z ->
  cropPositions s !! id = Some p ->
  0 < z -> 0 < z' ->
  let layout := calculateLayout target img in
  let Cw := Size.width (PreviewLayout.container layout) in
  let Ch := Size.height (PreviewLayout.container layout) in
  let Iw := Size.width (PreviewLayout.image layout) in
  let Ih := Size.height (PreviewLayout.image layout) in
  Cw - Iw * z <= Vector2D.x p <= 0 ->
  Ch - Ih * z <= Vector2D.y p <= 0 ->
  let s2 := handleZoomChange id z (handleZoomChange id z' s) in
  let restored :=
    exists p2 : Vector2D.t Q,
      cropPositions s2 !! id = Some p2 /\ Vector2D_equiv p2 p /\
      zoomLevels s2 !! id = Some z in
  (Cw - Iw * z' <= Vector2D.x (spec_zoom_anchor Cw Ch p z z') <= 0 ->
   Ch - Ih * z' <= Vector2D.y (spec_zoom_anchor Cw Ch p z z') <= 0 ->
   restored) /\
  (z <= z' -> 0 < CropTarget.width target -> 0 < CropTarget.height target ->
   restored).
Proof.
  intros Himg Hfind Hzoom Hp Hz Hz' layout Cw Ch Iw Ih Hx Hy s2 restored.
  destruct (zoom_twice id z z' p s img target Himg Hfind Hzoom Hp Hz Hz')
    as [Hp2 Hz2].
  assert (Hmain :
    Cw - Iw * z' <= Vector2D.x (spec_zoom_anchor Cw Ch p z z') <= 0 ->
    Ch - Ih * z' <= Vector2D.y (spec_zoom_anchor Cw Ch p z z') <= 0 ->
    restored).
  { intros Hax Hay. subst restored s2. eexists. split; [exact Hp2 |].
    split; [| exact Hz2].
    apply zoom_round_trip_unclamped; assumption. }
  split; [exact Hmain |].
  intros Hzz Htw Hth.
  destruct (calculateLayout_container target img) as [HCw HCh].
  pose proof (target_ratio_pos target Htw Hth) as Hrt.
  assert (HCw0 : 0 <= Cw) by (subst Cw layout; rewrite HCw; discriminate).
  assert (HCh0 : 0 <= Ch).
  { subst Ch layout. rewrite HCh. apply Qlt_le_weak, Qdiv_pos; [reflexivity | exact Hrt]. }
  apply Hmain; unfold spec_zoom_anchor; cbn [Vector2D.x Vector2D.y];
    apply anchor_zoom_in_bounds; assumption.
Qed.

Lemma C6_zoom_round_trip_witness :
  exists p2 : Vector2D.t Q,
    cropPositions
      (handleZoomChange "mobile" 1
         (handleZoomChange "mobile" (3 # 2)
            (scenario_state 1 {| Vector2D.x := - (100); Vector2D.y := 0 |})))
      !! "mobile"%string = Some p2 /\
    Vector2D_equiv p2 {| Vector2D.x := - (100); Vector2D.y := 0 |} /\
    zoomLevels
      (handleZoomChange "mobile" 1
         (handleZoomChange "mobile" (3 # 2)
            (scenario_state 1 {| Vector2D.x := - (100); Vector2D.y := 0 |})))
      !! "mobile"%string = Some 1.
Proof.
  pose proof (C6_zoom_round_trip "mobile"%string 1 (3 # 2)
                {| Vector2D.x := - (100); Vector2D.y := 0 |}
                (scenario_state 1 {| Vector2D.x := - (100); Vector2D.y := 0 |})
                scenario_image scenario_target) as Htrip.
  cbv zeta in Htrip.
  destruct Htrip as [_ Hin];
    [reflexivity | reflexivity | reflexivity | reflexivity | reflexivity | reflexivity
    | split; vm_compute; discriminate
    | split; vm_compute; discriminate |].
  apply Hin; [vm_compute; discriminate | reflexivity | reflexivity].
Defined.

(** When the first step is clamped the round trip need not restore the
    position: from the top-left corner at zoom 2, zooming out to 1 and
    back in to 2 ends at (-225, -206.25). *)
Example zoom_out_round_trip_clamped :
  exists p2 : Vector2D.t Q,
    cropPositions
      (handleZoomChange "mobile" 2
         (handleZoomChange "mobile" 1
            (scenario_state 2 {| Vector2D.x := 0; Vector2D.y := 0 |})))
      !! "mobile"%string = Some p2 /\
    Vector2D_equiv p2 {| Vector2D.x := - (225); Vector2D.y := - (20625 # 100) |}.
Proof.
  eexists. split; [vm_compute; reflexivity |]. split; vm_compute; reflexivity.
Qed.

(** ** Export batch *)

Lemma Promise_all_rejects {E A : Type} (l : list (E + A)) (e : E) :
  In (inl e) l -> exists e', Promise_all l = inl e'.
Proof.
  induction l as [| [e0 | a] l IH]; intros Hin; [destruct Hin | |].
  - exists e0. reflexivity.
  - destruct Hin as [Heq | Hin]; [discriminate Heq |].
    destruct (IH Hin) as [e' He']. exists e'. cbn. rewrite He'. reflexivity.
Qed.

Lemma Promise_all_resolves {E A : Type} (l : list (E + A)) (results : list A) :
  Promise_all l = inr results -> l = map inr results.
Proof.
  revert results. induction l as [| [e0 | a] l IH]; intros results Hall; cbn in Hall.
  - injection Hall as <-. reflexivity.
  - discriminate Hall.
  - destruct (Promise_all l) as [e | rs]; [discriminate Hall |].
    injection Hall as <-. cbn. f_equal. apply IH. reflexivity.
Qed.

Lemma Promise_all_all_resolved {E A : Type} (l : list (E + A)) :
  (forall o, In o l -> exists a, o = inr a) ->
  exists results, Promise_all l = inr results.
Proof.
  induction l as [| o l IH]; intros Hall; [exists []; reflexivity |].
  destruct (Hall o (or_introl eq_refl)) as [a ->].
  destruct IH as [results Hresults].
  { intros o' Hin. apply Hall. right. exact Hin. }
  exists (a :: results). cbn. rewrite Hresults. reflexivity.
Qed.

(** The map built by [reduce((acc, x) => { acc[key x] = val x; ... })]:
    a key that occurs holds the value of one of its occurrences. *)
Lemma lookup_foldl_insert {A V : Type} (key : A -> string) (val : A -> V)
    (l : list A) (acc : gmap string V) (k : string) :
  (~ In k (map key l) /\
   foldl (fun acc x => <[key x := val x]> acc) acc l !! k = acc !! k) \/
  (exists x, In x l /\ key x = k /\
   foldl (fun acc x => <[key x := val x]> acc) acc l !! k = Some (val x)).
Proof.
  revert acc. induction l as [| x l IH]; intros acc; cbn [foldl map].
  - left. split; [intros [] | reflexivity].
  - destruct (IH (<[key x := val x]> acc)) as [[Hnot Hlook] | (y & Hin & Hkey & Hlook)].
    + destruct (decide (key x = k)) as [Heq | Hne].
      * right. exists x. split; [left; reflexivity |]. split; [exact Heq |].
        rewrite Hlook, Heq. apply lookup_insert_eq.
      * left. split.
        -- intros [Heq | Hin]; [exact (Hne Heq) | exact (Hnot Hin)].
        -- rewrite Hlook. apply lookup_insert_ne. exact Hne.
    + right. exists y. split; [right; exact Hin |]. split; assumption.
Qed.

Section ExportBatch.
Variables (env : Canvas Q) (img : ImageInfo.t Q) (s : AppState Q).

Lemma cropPromise_rejects (target : CropTarget.t Q) :
  getContext env (CropTarget.id target) = false \/
  toBlob env (CropTarget.id target) = None ->
  exists e, snd (cropPromise env img s target) = inl e.
Proof.
  intros Hfail. unfold cropPromise.
  destruct (getContext env (CropTarget.id target)); [| eexists; reflexivity].
  destruct Hfail as [Hctx | Hblob]; [discriminate Hctx |].
  cbn [negb].
  destruct (cropPositions s !! CropTarget.id target); [| eexists; reflexivity].
  destruct (drawImageSource _ _ _ _) as [[[sx sy] sw] sh].
  rewrite Hblob. eexists. reflexivity.
Qed.

Lemma cropPromise_resolves (target : CropTarget.t Q) (r : string * CroppedResult.t Q) :
  snd (cropPromise env img s target) = inr r ->
  getContext env (CropTarget.id target) = true /\
  fst r = CropTarget.id target /\
  toBlob env (CropTarget.id target) = Some (snd r).
Proof.
  unfold cropPromise.
  destruct (getContext env (CropTarget.id target)); cbn [negb]; [| discriminate].
  destruct (cropPositions s !! CropTarget.id target); [| discriminate].
  destruct (drawImageSource _ _ _ _) as [[[sx sy] sw] sh].
  destruct (toBlob env (CropTarget.id target)) as [blob |]; cbn [snd]; [| discriminate].
  intros Hr. injection Hr as <-. repeat split; reflexivity.
Qed.

Lemma cropPromise_succeeds (target : CropTarget.t Q) :
  getContext env (CropTarget.id target) = true ->
  is_Some (toBlob env (CropTarget.id target)) ->
  is_Some (cropPositions s !! CropTarget.id target) ->
  exists r, snd (cropPromise env img s target) = inr r.
Proof.
  intros Hctx [blob Hblob] [position Hpos]. unfold cropPromise.
  rewrite Hctx, Hpos. cbn [negb].
  destruct (drawImageSource _ _ _ _) as [[[sx sy] sw] sh].
  rewrite Hblob. eexists. reflexivity.
Qed.

Lemma cropPromise_only_draws (target : CropTarget.t Q) (msg : string) :
  ~ In (Alert msg) (fst (cropPromise env img s target)).
Proof.
  unfold cropPromise.
  destruct (getContext env (CropTarget.id target)); cbn [negb]; [| intros []].
  destruct (cropPositions s !! CropTarget.id target); [| intros []].
  destruct (drawImageSource _ _ _ _) as [[[sx sy] sw] sh].
  cbn [fst]. intros [Hin | []]. discriminate Hin.
Qed.
End ExportBatch.

(** C7.  While an image is loaded: if some target's canvas context or
    blob cannot be obtained, [handleCrop] leaves the stored results as
    they were and raises the alert.  If every target's context and blob
    are obtained (and every target has a stored position, as it has
    after an upload), the stored results are replaced by the complete new
    set: each target's id is bound to its blob, no other key is bound,
    and no alert is raised.  In every run one of these two outcomes
    occurs: the results stay as they were and the alert is raised, or
    the complete new set is stored and no alert is raised. *)
Theorem C7_atomic_export (env : Canvas Q) (s : AppState Q) (img : ImageInfo.t Q) :
  imageInfo s = Some img ->
  let s' := fst (handleCrop env s) in
  let effects := snd (handleCrop env s) in
  let committed :=
    (forall target, In target (dynamicTargets s) ->
       getContext env (CropTarget.id target) = true /\
       exists blob, toBlob env (CropTarget.id target) = Some blob /\
                    croppedImages s' !! CropTarget.id target = Some blob) /\
    (forall k, is_Some (croppedImages s' !! k) ->
               In k (map CropTarget.id (dynamicTargets s))) /\
    ~ In (Alert crop_alert) effects in
  ((exists target, In target (dynamicTargets s) /\
      (getContext env (CropTarget.id target) = false \/
       toBlob env (CropTarget.id target) = None)) ->
   croppedImages s' = croppedImages s /\ In (Alert crop_alert) effects) /\
  ((forall target, In target (dynamicTargets s) ->
      getContext env (CropTarget.id target) = true /\
      is_Some (toBlob env (CropTarget.id target)) /\
      is_Some (cropPositions s !! CropTarget.id target)) ->
   committed) /\
  ((croppedImages s' = croppedImages s /\ In (Alert crop_alert) effects) \/
   committed).
Proof.
  intros Himg. cbv zeta. unfold handleCrop. rewrite Himg.
  set (s1 := setIsProcessing true s).
  change (dynamicTargets s1) with (dynamicTargets s).
  set (jobs := map (cropPromise env img s1) (dynamicTargets s)).
  assert (Hjob : forall target, In target (dynamicTargets s) ->
                 In (snd (cropPromise env img s1 target)) (map snd jobs)).
  { intros target Hin. apply in_map. subst jobs. apply in_map. exact Hin. }
  assert (Hback : forall o, In o (map snd jobs) ->
                  exists target, In target (dynamicTargets s) /\
                                 snd (cropPromise env img s1 target) = o).
  { intros o Hin. apply in_map_iff in Hin as (job & <- & Hin).
    subst jobs. apply in_map_iff in Hin as (target & <- & Hin).
    exists target. split; [exact Hin | reflexivity]. }
  destruct (Promise_all (map snd jobs)) as [error | results] eqn:Hall.
  - cbn [fst snd croppedImages setIsProcessing].
    assert (Hfailed : croppedImages s = croppedImages s /\
                      In (Alert crop_alert)
                        (concat (map fst jobs)
                         ++ [ConsoleError "Cropping failed:" error; Alert crop_alert])).
    { split; [reflexivity |]. apply in_or_app. right. right. left. reflexivity. }
    split; [intros _; exact Hfailed |].
    split; [| left; exact Hfailed].
    intros Hgood. exfalso.
    destruct (Promise_all_all_resolved (map snd jobs)) as [results Hresults].
    { intros o Hin. destruct (Hback o Hin) as (target & Hin' & <-).
      destruct (Hgood target Hin') as (Hctx & Hblob & Hpos).
      exact (cropPromise_succeeds env img s1 target Hctx Hblob Hpos). }
    rewrite Hall in Hresults. discriminate Hresults.
  - cbn [fst snd croppedImages setIsProcessing setCroppedImages].
    apply Promise_all_resolves in Hall as Hresults.
    assert (Hcommitted :
      (forall target, In target (dynamicTargets s) ->
         getContext env (CropTarget.id target) = true /\
         exists blob, toBlob env (CropTarget.id target) = Some blob /\
           foldl (fun acc curr => <[fst curr := snd curr]> acc)
             (∅ : gmap string (CroppedResult.t Q)) results
             !! CropTarget.id target = Some blob) /\
      (forall k,
         is_Some (foldl (fun acc curr => <[fst curr := snd curr]> acc)
                    (∅ : gmap string (CroppedResult.t Q)) results !! k) ->
         In k (map CropTarget.id (dynamicTargets s))) /\
      ~ In (Alert crop_alert) (concat (map fst jobs))).
    { split; [| split].
      * intros target Hin.
        pose proof (Hjob target Hin) as Hin'. rewrite Hresults in Hin'.
        apply in_map_iff in Hin' as (r & Hr & Hrin). symmetry in Hr.
        destruct (cropPromise_resolves env img s1 target r Hr) as (Hctx & Hid & Hblob).
        split; [exact Hctx |]. exists (snd r). split; [exact Hblob |].
        destruct (lookup_foldl_insert fst snd results ∅ (CropTarget.id target))
          as [[Hnot _] | (r' & Hr'in & Hkey & Hlook)].
        -- exfalso. apply Hnot. rewrite <- Hid. apply in_map. exact Hrin.
        -- rewrite Hlook. f_equal.
           assert (Hin'' : In (inr r') (map snd jobs))
             by (rewrite Hresults; apply in_map; exact Hr'in).
           destruct (Hback _ Hin'') as (target' & _ & Hr').
           destruct (cropPromise_resolves env img s1 target' r' Hr') as (_ & Hid' & Hblob').
           rewrite <- Hid', Hkey, Hblob in Hblob'. injection Hblob' as ->. reflexivity.
      * intros k [v Hv].
        destruct (lookup_foldl_insert fst snd results ∅ k)
          as [[_ Hlook] | (r' & Hr'in & Hkey & _)].
        -- rewrite Hlook, lookup_empty in Hv. discriminate Hv.
        -- assert (Hin'' : In (inr r') (map snd jobs))
             by (rewrite Hresults; apply in_map; exact Hr'in).
           destruct (Hback _ Hin'') as (target' & Hin' & Hr').
           destruct (cropPromise_resolves env img s1 target' r' Hr') as (_ & Hid' & _).
           apply in_map_iff. exists target'. split; [congruence | exact Hin'].
      * intros Hin. apply in_concat in Hin as (l & Hl & Hin).
        apply in_map_iff in Hl as (job & <- & Hjobin).
        subst jobs. apply in_map_iff in Hjobin as (target & <- & _).
        exact (cropPromise_only_draws env img s1 target crop_alert Hin). }
    split; [| split; [intros _; exact Hcommitted | right; exact Hcommitted]].
    intros (target & Hin & Hfail).
    destruct (cropPromise_rejects env img s1 target Hfail) as [e He].
    pose proof (Hjob target Hin) as Hin'. rewrite He in Hin'.
    destruct (Promise_all_rejects _ e Hin') as [e' He'].
    rewrite Hall in He'. discriminate He'.
Qed.

Lemma C7_atomic_export_witness :
  (croppedImages (fst (handleCrop failing_canvas cropped_state))
     = croppedImages cropped_state /\
   In (Alert crop_alert) (snd (handleCrop failing_canvas cropped_state))) /\
  (let s := handleImageUpload (Some ("data:"%string, 1125, 2000)) portrait_file
              initialState in
   let s' := fst (handleCrop obliging_canvas s) in
   (forall target, In target (dynamicTargets s) ->
      getContext obliging_canvas (CropTarget.id target) = true /\
      exists blob, toBlob obliging_canvas (CropTarget.id target) = Some blob /\
                   croppedImages s' !! CropTarget.id target = Some blob) /\
   (forall k, is_Some (croppedImages s' !! k) ->
              In k (map CropTarget.id (dynamicTargets s))) /\
   ~ In (Alert crop_alert) (snd (handleCrop obliging_canvas s))).
Proof.
  split.
  - apply (proj1 (C7_atomic_export failing_canvas cropped_state portrait_image eq_refl)).
    exists (newTarget 1125 2000 preset_desktop).
    split; [right; left; reflexivity | right; reflexivity].
  - apply (proj1 (proj2 (C7_atomic_export obliging_canvas
                           (handleImageUpload (Some ("data:"%string, 1125, 2000))
                              portrait_file initialState)
                           portrait_image eq_refl))).
    intros target [<- | [<- | []]];
      (split; [reflexivity | split; eexists; vm_compute; reflexivity]).
Defined.

(** ** Upload filter *)

(** C8 does not hold of every file of an event.  Dropping [notes.txt]
    together with [poster.png] delivers an image file, and neither
    handler calls [onImageUpload] at all: both look at the first file
    only. *)
Lemma C8_later_image_not_uploaded :
  In portrait_file [text_file; portrait_file] /\
  String.prefix "image/" (File.type portrait_file) = true /\
  handleDrop (fun f calls => f :: calls) [text_file; portrait_file] [] = [] /\
  handleFileChange (fun f calls => f :: calls) [text_file; portrait_file] [] = [] /\
  ~ In portrait_file
      (handleDrop (fun f calls => f :: calls) [text_file; portrait_file] []).
Proof.
  split; [right; left; reflexivity |].
  split; [reflexivity |].
  split; [reflexivity |].
  split; [reflexivity |].
  intros [].
Qed.

(** C8, amended.  When the first file of a picker or drop event has a declared
    type that does not start with ["image/"], neither handler calls
    [onImageUpload] and the state stays as it was, whatever the callback
    and the state are (in particular the log of calls stays empty); when
    the type does start with ["image/"], both handlers return what
    [onImageUpload] makes of that file. *)
Theorem C8_invalid_upload_rejection {N St : Type} (onImageUpload : File.t N -> St -> St)
    (file : File.t N) (others : list (File.t N)) (s : St) :
  (String.prefix "image/" (File.type file) = false ->
   handleFileChange onImageUpload (file :: others) s = s /\
   handleDrop onImageUpload (file :: others) s = s /\
   handleFileChange (fun f calls => f :: calls) (file :: others) [] = [] /\
   handleDrop (fun f calls => f :: calls) (file :: others) [] = []) /\
  (String.prefix "image/" (File.type file) = true ->
   handleFileChange onImageUpload (file :: others) s = onImageUpload file s /\
   handleDrop onImageUpload (file :: others) s = onImageUpload file s /\
   handleFileChange (fun f calls => f :: calls) (file :: others) [] = [file] /\
   handleDrop (fun f calls => f :: calls) (file :: others) [] = [file]).
Proof.
  unfold handleFileChange, handleDrop. cbn [head].
  split; intros Htype; rewrite Htype; repeat split; reflexivity.
Qed.

Lemma C8_invalid_upload_rejection_witness :
  handleDrop (handleImageUpload (Some ("data:"%string, 1125, 2000)))
    [text_file; portrait_file] cropped_state = cropped_state /\
  handleFileChange (handleImageUpload (Some ("data:"%string, 1125, 2000)))
    [portrait_file] cropped_state
  = handleImageUpload (Some ("data:"%string, 1125, 2000)) portrait_file cropped_state.
Proof.
  split.
  - apply (proj1 (C8_invalid_upload_rejection
                    (handleImageUpload (Some ("data:"%string, 1125, 2000)))
                    text_file [portrait_file] cropped_state)).
    reflexivity.
  - apply (proj2 (C8_invalid_upload_rejection
                    (handleImageUpload (Some ("data:"%string, 1125, 2000)))
                    portrait_file [] cropped_state)).
    reflexivity.
Defined.

(** ** File names *)

(** C9.  The file name is the base name, the target's suffix if it has
    one, an underscore, the rounded scaled width, an ["x"], the rounded
    scaled height and [".webp"]. *)
Theorem C9_output_filename {N : Type} `{JSNumber N}
    (baseName : string) (target : CropTarget.t N) (scale : N) :
  let outputWidth := Math_round (CropTarget.width target * scale)%js in
  let outputHeight := Math_round (CropTarget.height target * scale)%js in
  (forall suffix : string,
      CropTarget.suffix target = Some suffix ->
      getOutputFilename baseName target scale
      = baseName +:+ suffix +:+ "_" +:+ string_of_Z outputWidth
          +:+ "x" +:+ string_of_Z outputHeight +:+ ".webp") /\
  (CropTarget.suffix target = None ->
   getOutputFilename baseName target scale
   = baseName +:+ "_" +:+ string_of_Z outputWidth
       +:+ "x" +:+ string_of_Z outputHeight +:+ ".webp").
Proof.
  cbv zeta. unfold getOutputFilename. split.
  - intros suffix Hsuffix. rewrite Hsuffix.
    destruct (String.eqb suffix "") eqn:Hempty; cbn [negb]; [| reflexivity].
    apply String.eqb_eq in Hempty. subst suffix. reflexivity.
  - intros Hnone. rewrite Hnone. reflexivity.
Qed.

Lemma C9_output_filename_witness :
  getOutputFilename "poster" (newTarget 1125 2000 preset_mobile) (3 # 2)
  = "poster_S_1688x1547.webp"%string.
Proof.
  exact (proj1 (C9_output_filename "poster" (newTarget 1125 2000 preset_mobile) (3 # 2))
           "_S"%string eq_refl).
Defined.

(** ** Initial state after an upload *)

Lemma Qfloor_pos (a : Q) : 1 <= a -> 0 < inject_Z (Qfloor a).
Proof.
  intros Ha. apply (Qfloor_resp_le 1 a) in Ha. change (Qfloor 1) with 1%Z in Ha.
  rewrite Zle_Qle in Ha. change (inject_Z 1) with 1 in Ha. lra.
Qed.

(** A preset of ratio between 1 and the image width yields a target of
    positive dimensions. *)
Lemma newTarget_positive (W Ht : Q) (preset : CropPreset.t Q) :
  0 < CropPreset.baseHeight preset ->
  CropPreset.baseHeight preset <= CropPreset.baseWidth preset ->
  CropPreset.baseWidth preset <= W * CropPreset.baseHeight preset ->
  1 <= Ht ->
  0 < CropTarget.width (newTarget W Ht preset) /\
  0 < CropTarget.height (newTarget W Ht preset).
Proof.
  intros Hbh Hge1 HleW HH.
  set (r := CropPreset.baseWidth preset / CropPreset.baseHeight preset).
  pose proof (Qdiv_mult_cancel (CropPreset.baseWidth preset) _ Hbh) as Hr.
  fold r in Hr.
  assert (Hr1 : 1 <= r) by (clearbody r; nra).
  assert (HrW : r <= W) by (clearbody r; nra).
  assert (Hrpos : 0 < r) by lra.
  pose proof (Qdiv_mult_cancel W r Hrpos) as Hq.
  destruct (Qlt_le_dec Ht (W / r)) as [Hlt | Hle].
  - destruct (newTarget_refit W Ht preset Hlt) as [Hw Hh]. fold r in Hw.
    rewrite Hw, Hh. split; apply Qfloor_pos; [clearbody r; nra | exact HH].
  - destruct (newTarget_by_width W Ht preset Hle) as [Hw Hh]. fold r in Hh.
    rewrite Hw, Hh. split; apply Qfloor_pos; [lra |].
    set (q := W / r) in *. clearbody q r. nra.
Qed.

Lemma newTarget_id (W Ht : Q) (preset : CropPreset.t Q) :
  CropTarget.id (newTarget W Ht preset) = CropPreset.id preset.
Proof. unfold newTarget. destruct (num_gt _ _); reflexivity. Qed.

Lemma centered_in_bounds (C I : Q) : C <= I -> C - I <= (C - I) / 2 <= 0.
Proof.
  intros Hle. assert (Hhalf : 2 * ((C - I) / 2) == C - I) by field.
  set (h := (C - I) / 2) in *. clearbody h. split; lra.
Qed.

Lemma find_target_spec (id : string) (targets : list (CropTarget.t Q))
    (target : CropTarget.t Q) :
  List.find (fun t => String.eqb (CropTarget.id t) id) targets = Some target ->
  In target targets /\ CropTarget.id target = id.
Proof.
  intros Hfind. apply find_some in Hfind as [Hin Hid].
  split; [exact Hin | apply String.eqb_eq; exact Hid].
Qed.

Lemma target_id_unique (targets : list (CropTarget.t Q)) (t t' : CropTarget.t Q) :
  List.NoDup (map CropTarget.id targets) ->
  In t targets -> In t' targets -> CropTarget.id t = CropTarget.id t' -> t = t'.
Proof.
  induction targets as [| a l IH]; intros Hnd Ht Ht' Hid; [destruct Ht |].
  cbn [map] in Hnd. apply NoDup_cons_iff in Hnd as [Hnotin Hnd].
  destruct Ht as [<- | Ht]; destruct Ht' as [<- | Ht'].
  - reflexivity.
  - exfalso. apply Hnotin. rewrite Hid. apply in_map. exact Ht'.
  - exfalso. apply Hnotin. rewrite <- Hid. apply in_map. exact Ht.
  - apply IH; assumption.
Qed.

Lemma find_target_present (targets : list (CropTarget.t Q)) (target : CropTarget.t Q) :
  List.NoDup (map CropTarget.id targets) -> In target targets ->
  List.find (fun t => String.eqb (CropTarget.id t) (CropTarget.id target)) targets
  = Some target.
Proof.
  intros Hnd Hin.
  destruct (List.find _ targets) as [t |] eqn:Hfind.
  - apply find_target_spec in Hfind as [Hin' Hid].
    f_equal. apply (target_id_unique targets); assumption.
  - pose proof (find_none _ _ Hfind target Hin) as Hne.
    cbv beta in Hne. rewrite String.eqb_refl in Hne. discriminate Hne.
Qed.

Section UploadedState.
Variables (file : File.t Q) (src : string) (W Ht : Q) (s : AppState Q).
Let s' := handleImageUpload (Some (src, W, Ht)) file s.
Let img : ImageInfo.t Q :=
  {| ImageInfo.src := src; ImageInfo.width := W; ImageInfo.height := Ht;
     ImageInfo.name := removeExtension (File.name file);
     ImageInfo.size := File.size file |}.

Lemma uploaded_image : imageInfo s' = Some img /\ dynamicTargets s' = newTargets W Ht.
Proof. split; reflexivity. Qed.

Lemma newTargets_ids : map CropTarget.id (newTargets W Ht) = ["mobile"; "desktop"]%string.
Proof.
  unfold newTargets, CROP_PRESETS. cbn [map]. rewrite !newTarget_id. reflexivity.
Qed.

Lemma newTargets_NoDup : List.NoDup (map CropTarget.id (newTargets W Ht)).
Proof.
  rewrite newTargets_ids. repeat constructor; cbn; intuition discriminate.
Qed.

Lemma newTargets_positive (target : CropTarget.t Q) :
  In target (newTargets W Ht) -> 3 <= W -> 1 <= Ht ->
  0 < CropTarget.width target /\ 0 < CropTarget.height target.
Proof.
  intros Hin HW HH. unfold newTargets, CROP_PRESETS in Hin. cbn [map In] in Hin.
  destruct Hin as [<- | [<- | []]]; apply newTarget_positive;
    cbn [CropPreset.baseWidth CropPreset.baseHeight preset_mobile preset_desktop];
    q_ops; try reflexivity; try discriminate; try exact HH.
  - change (inject_Z 1055) with 1055. change (inject_Z 967) with 967. lra.
  - change (inject_Z 1024) with 1024. change (inject_Z 440) with 440. lra.
Qed.

(** What the three [reduce] calls of [img.onload] store for a target. *)
Lemma uploaded_lookups (target : CropTarget.t Q) :
  In target (newTargets W Ht) ->
  let layout := calculateLayout target img in
  cropPositions s' !! CropTarget.id target
  = Some {| Vector2D.x := (Size.width (PreviewLayout.container layout)
                           - Size.width (PreviewLayout.image layout)) / 2;
            Vector2D.y := (Size.height (PreviewLayout.container layout)
                           - Size.height (PreviewLayout.image layout)) / 2 |} /\
  zoomLevels s' !! CropTarget.id target = Some 1 /\
  targetScales s' !! CropTarget.id target = Some 1.
Proof.
  intros Hin layout.
  assert (Hkey : In (CropTarget.id target) (map CropTarget.id (newTargets W Ht)))
    by (apply in_map; exact Hin).
  assert (Hones : initialOnes (newTargets W Ht) !! CropTarget.id target = Some 1).
  { destruct (lookup_foldl_insert CropTarget.id (fun _ => 1)
                (newTargets W Ht) ∅ (CropTarget.id target))
      as [[Hnot _] | (t & _ & _ & Hlook)]; [exact (False_ind _ (Hnot Hkey)) |].
    exact Hlook. }
  split; [| split; exact Hones].
  change (cropPositions s') with (initialPositions (newTargets W Ht) img).
  unfold initialPositions.
  match goal with
  | |- foldl (fun acc x => <[_ := ?v]> acc) _ _ !! _ = _ =>
      destruct (lookup_foldl_insert CropTarget.id (fun x => v)
                  (newTargets W Ht) ∅ (CropTarget.id target))
        as [[Hnot _] | (t & Ht_in & Hid & Hlook)]
  end; [exact (False_ind _ (Hnot Hkey)) |].
  rewrite Hlook.
  rewrite (target_id_unique _ t target newTargets_NoDup Ht_in Hin Hid). reflexivity.
Qed.
End UploadedState.

(** C10.  After the upload of an image of natural size [W] x [Ht] has
    completed, the state holds that image, and every crop target has its
    position at [((Cw - Iw) / 2, (Ch - Ih) / 2)] of its cover layout and
    its zoom and output scale at 1.  When the image and the target have
    positive dimensions, that position lies in [[Cw - Iw, 0] x [Ch - Ih,
    0]]; the targets of an image at least 3 wide and 1 high do. *)
Theorem C10_initial_centering (file : File.t Q) (src : string) (W Ht : Q)
    (s : AppState Q) (target : CropTarget.t Q) :
  let s' := handleImageUpload (Some (src, W, Ht)) file s in
  In target (dynamicTargets s') ->
  exists img : ImageInfo.t Q,
    imageInfo s' = Some img /\ ImageInfo.width img = W /\ ImageInfo.height img = Ht /\
    let layout := calculateLayout target img in
    let Cw := Size.width (PreviewLayout.container layout) in
    let Ch := Size.height (PreviewLayout.container layout) in
    let Iw := Size.width (PreviewLayout.image layout) in
    let Ih := Size.height (PreviewLayout.image layout) in
    let x0 := (Cw - Iw) / 2 in
    let y0 := (Ch - Ih) / 2 in
    cropPositions s' !! CropTarget.id target
      = Some {| Vector2D.x := x0; Vector2D.y := y0 |} /\
    zoomLevels s' !! CropTarget.id target = Some 1 /\
    targetScales s' !! CropTarget.id target = Some 1 /\
    (0 < W -> 0 < Ht ->
     0 < CropTarget.width target -> 0 < CropTarget.height target ->
     Cw <= Iw /\ Ch <= Ih /\ Cw - Iw <= x0 <= 0 /\ Ch - Ih <= y0 <= 0) /\
    (3 <= W -> 1 <= Ht ->
     0 < CropTarget.width target /\ 0 < CropTarget.height target).
Proof.
  intros s' Hin.
  destruct (uploaded_image file src W Ht s) as [Himg Htargets].
  fold s' in Himg, Htargets. rewrite Htargets in Hin.
  eexists. split; [exact Himg |]. split; [reflexivity |]. split; [reflexivity |].
  cbv zeta.
  destruct (uploaded_lookups file src W Ht s target Hin) as (Hpos & Hzoom & Hscale).
  split; [exact Hpos |]. split; [exact Hzoom |]. split; [exact Hscale |]. split.
  - intros HW HH Htw Hth.
    match goal with
    | |- Size.width (PreviewLayout.container (calculateLayout _ ?i)) <= _ /\ _ =>
        destruct (calculateLayout_covers target i Htw Hth HW HH) as [Hw Hh]
    end.
    split; [exact Hw |]. split; [exact Hh |].
    split; apply centered_in_bounds; assumption.
  - intros HW HH. apply (newTargets_positive W Ht); assumption.
Qed.

Lemma C10_initial_centering_witness :
  exists img : ImageInfo.t Q,
    imageInfo (handleImageUpload (Some ("data:"%string, 1125, 2000)) portrait_file
                 cropped_state) = Some img /\
    zoomLevels (handleImageUpload (Some ("data:"%string, 1125, 2000)) portrait_file
                  cropped_state) !! "desktop"%string = Some 1.
Proof.
  destruct (C10_initial_centering portrait_file "data:" 1125 2000 cropped_state
              (newTarget 1125 2000 preset_desktop))
    as (img & Himg & _ & _ & _ & Hzoom & _).
  - right. left. reflexivity.
  - exists img. split; [exact Himg | exact Hzoom].
Defined.

(** ** Reachable states keep every container covered *)

Lemma handleCrop_frame (env : Canvas Q) (s : AppState Q) :
  imageInfo (fst (handleCrop env s)) = imageInfo s /\
  dynamicTargets (fst (handleCrop env s)) = dynamicTargets s /\
  cropPositions (fst (handleCrop env s)) = cropPositions s /\
  zoomLevels (fst (handleCrop env s)) = zoomLevels s.
Proof.
  unfold handleCrop. destruct (imageInfo s) eqn:Himg.
  - destruct (Promise_all _);
      cbn [fst imageInfo dynamicTargets cropPositions zoomLevels
           setIsProcessing setCroppedImages];
      rewrite ?Himg; repeat split.
  - cbn [fst]. rewrite ?Himg. repeat split.
Qed.

Lemma covering_invariant_upload (file : File.t Q) (src : string) (W Ht : Q)
    (s : AppState Q) :
  3 <= W -> 1 <= Ht ->
  covering_invariant (handleImageUpload (Some (src, W, Ht)) file s).
Proof.
  intros HW HH. unfold covering_invariant.
  destruct (uploaded_image file src W Ht s) as [Himg Htargets].
  rewrite Himg, Htargets. cbn [ImageInfo.width ImageInfo.height].
  split; [lra |]. split; [lra |]. split; [apply newTargets_NoDup |].
  intros target Hin.
  destruct (newTargets_positive W Ht target Hin HW HH) as [Htw Hth].
  destruct (uploaded_lookups file src W Ht s target Hin) as (Hpos & Hzoom & _).
  split; [exact Htw |]. split; [exact Hth |].
  unfold covered. eexists. eexists.
  split; [exact Hzoom |]. split; [lra |]. split; [exact Hpos |].
  match goal with
  | |- context [calculateLayout target ?i] =>
      destruct (calculateLayout_covers target i Htw Hth) as [Hw Hh];
        [cbn [ImageInfo.width]; lra | cbn [ImageInfo.height]; lra |]
  end.
  cbn [Vector2D.x Vector2D.y]. rewrite !Qmult_1_r.
  split; apply centered_in_bounds; assumption.
Qed.

Lemma handleZoomChange_other (id k : string) (newZoom : Q) (s : AppState Q) :
  k <> id ->
  cropPositions (handleZoomChange id newZoom s) !! k = cropPositions s !! k /\
  zoomLevels (handleZoomChange id newZoom s) !! k = zoomLevels s !! k.
Proof.
  intros Hne. unfold handleZoomChange.
  destruct (imageInfo s); [| split; reflexivity].
  destruct (List.find _ _); [| split; reflexivity].
  unfold setCropPositions, setZoomLevels. cbn [cropPositions zoomLevels].
  split; apply lookup_insert_ne; congruence.
Qed.

Lemma covering_invariant_frame (s s' : AppState Q) :
  imageInfo s' = imageInfo s -> dynamicTargets s' = dynamicTargets s ->
  cropPositions s' = cropPositions s -> zoomLevels s' = zoomLevels s ->
  covering_invariant s -> covering_invariant s'.
Proof.
  intros Himg Htargets Hpos Hzoom. unfold covering_invariant, covered.
  rewrite Himg, Htargets, Hpos, Hzoom. exact (fun Hinv => Hinv).
Qed.

Lemma covering_invariant_zoom (s : AppState Q) (target : CropTarget.t Q) (z : Q) :
  covering_invariant s -> In target (dynamicTargets s) -> 1 <= z ->
  covering_invariant (handleZoomChange (CropTarget.id target) z s).
Proof.
  unfold covering_invariant. intros Hinv Hin Hz.
  destruct (imageInfo s) as [img |] eqn:Himg; [| rewrite Hinv in Hin; destruct Hin].
  destruct Hinv as (HW & HH & Hnd & Hall).
  pose proof (find_target_present _ target Hnd Hin) as Hfind.
  destruct (handleZoomChange_unfold _ z s img target Himg Hfind)
    as (Hpos & Hzoom & Himg' & Htargets').
  rewrite Himg', Himg, Htargets'.
  split; [exact HW |]. split; [exact HH |]. split; [exact Hnd |].
  intros target' Hin'. destruct (Hall target' Hin') as (Htw & Hth & Hcov).
  split; [exact Htw |]. split; [exact Hth |].
  destruct (decide (CropTarget.id target' = CropTarget.id target)) as [Heq | Hne].
  - assert (target' = target) as -> by (apply (target_id_unique _ _ _ Hnd); assumption).
    unfold covered. eexists. eexists.
    split; [exact Hzoom |]. split; [exact Hz |]. split; [exact Hpos |].
    destruct (zoomed_layout_covers target img z Htw Hth HW HH Hz) as [Hw Hh].
    apply (clampPosition_bounds
             (PreviewLayout.container (calculateLayout target img))
             {| Size.width := Size.width (PreviewLayout.image (calculateLayout target img)) * z;
                Size.height := Size.height (PreviewLayout.image (calculateLayout target img)) * z |});
      assumption.
  - destruct (handleZoomChange_other (CropTarget.id target) (CropTarget.id target') z s Hne)
      as [Hp Hzl].
    unfold covered in *. rewrite Hp, Hzl. exact Hcov.
Qed.

Lemma covering_invariant_drag (s : AppState Q) (target : CropTarget.t Q)
    (d : DragState Q) (clientX clientY : Q) :
  covering_invariant s -> In target (dynamicTargets s) ->
  covering_invariant (preview_mouseMove target d clientX clientY s).
Proof.
  unfold covering_invariant. intros Hinv Hin.
  unfold preview_mouseMove.
  destruct (imageInfo s) as [img |] eqn:Himg; [| rewrite Himg; exact Hinv].
  unfold displayLayout, handleMouseMove.
  destruct (isDragging d); cbn [negb]; [| rewrite Himg; exact Hinv].
  unfold handlePositionChange, setCropPositions.
  cbn [imageInfo dynamicTargets]. rewrite Himg.
  destruct Hinv as (HW & HH & Hnd & Hall).
  split; [exact HW |]. split; [exact HH |]. split; [exact Hnd |].
  intros target' Hin'. destruct (Hall target' Hin') as (Htw & Hth & Hcov).
  split; [exact Htw |]. split; [exact Hth |].
  destruct Hcov as (z & p & Hzoom & Hz & Hp & Hbounds).
  unfold covered. cbn [zoomLevels cropPositions].
  destruct (decide (CropTarget.id target' = CropTarget.id target)) as [Heq | Hne].
  - assert (target' = target) as -> by (apply (target_id_unique _ _ _ Hnd); assumption).
    exists z. eexists. split; [exact Hzoom |]. split; [exact Hz |].
    split; [apply lookup_insert_eq |].
    rewrite Hzoom, (or_default_pos z (of_Z 1)) by lra.
    destruct (zoomed_layout_covers target img z Htw Hth HW HH Hz) as [Hw Hh].
    apply (clampPosition_bounds
             (PreviewLayout.container (calculateLayout target img))
             {| Size.width := Size.width (PreviewLayout.image (calculateLayout target img)) * z;
                Size.height := Size.height (PreviewLayout.image (calculateLayout target img)) * z |});
      assumption.
  - exists z, p. split; [exact Hzoom |]. split; [exact Hz |].
    split; [| exact Hbounds].
    rewrite lookup_insert_ne by congruence. exact Hp.
Qed.

(** Every state the interface can reach keeps every preview covered. *)
Theorem reachable_covering (s : AppState Q) : reachable s -> covering_invariant s.
Proof.
  induction 1 as [| s file src W Ht _ _ HW HH | s file _ _ | s target z _ IH Hin Hz
                  | s target d clientX clientY _ IH Hin | s target scale _ IH _
                  | s env _ IH | s _ _].
  - reflexivity.
  - apply covering_invariant_upload; assumption.
  - reflexivity.
  - apply covering_invariant_zoom; assumption.
  - apply covering_invariant_drag; assumption.
  - revert IH. apply covering_invariant_frame; reflexivity.
  - destruct (handleCrop_frame env s) as (Himg & Htargets & Hpos & Hzoom).
    revert IH. apply covering_invariant_frame; assumption.
  - reflexivity.
Qed.

Example dragged_state_reachable : reachable dragged_state.
Proof.
  unfold dragged_state. cbv zeta.
  apply reach_drag; [| left; reflexivity].
  change "mobile"%string with (CropTarget.id (newTarget 1125 2000 preset_mobile)).
  apply reach_zoom; [| left; reflexivity | discriminate].
  apply reach_upload; [apply reach_init | discriminate | discriminate].
Qed.

(** X23.  In a reachable state every rectangle that [handleCrop] draws
    from starts inside the image and ends at most one pixel beyond it. *)
Theorem reachable_crop_within_one (s : AppState Q) (env : Canvas Q)
    (id : string) (sx sy sw sh dw dh : Z) :
  reachable s ->
  In (DrawImage id sx sy sw sh dw dh) (snd (handleCrop env s)) ->
  exists img : ImageInfo.t Q,
    imageInfo s = Some img /\
    (0 <= sx)%Z /\ (0 <= sy)%Z /\ (0 <= sw)%Z /\ (0 <= sh)%Z /\
    inject_Z (sx + sw) <= ImageInfo.width img + 1 /\
    inject_Z (sy + sh) <= ImageInfo.height img + 1.
Proof.
  intros Hreach Hdraw. apply reachable_covering in Hreach.
  unfold covering_invariant in Hreach. unfold handleCrop in Hdraw.
  destruct (imageInfo s) as [img |] eqn:Himg; [| destruct Hdraw].
  exists img. split; [reflexivity |].
  destruct Hreach as (HW & HH & _ & Hall).
  set (s1 := setIsProcessing true s) in *.
  change (dynamicTargets s1) with (dynamicTargets s) in Hdraw.
  assert (Hdrawn : In (DrawImage id sx sy sw sh dw dh)
                     (concat (map fst (map (cropPromise env img s1) (dynamicTargets s))))).
  { destruct (Promise_all _); cbn [snd] in Hdraw; [| exact Hdraw].
    apply in_app_or in Hdraw as [Hdraw | [Hdraw | [Hdraw | []]]];
      [exact Hdraw | discriminate Hdraw | discriminate Hdraw]. }
  apply in_concat in Hdrawn as (l & Hl & Hdrawn).
  apply in_map_iff in Hl as (job & <- & Hjob).
  apply in_map_iff in Hjob as (target & <- & Hin).
  destruct (Hall target Hin) as (Htw & Hth & z & p & Hzoom & Hz & Hp & Hx & Hy).
  unfold cropPromise in Hdrawn.
  destruct (getContext env (CropTarget.id target)); cbn [negb] in Hdrawn;
    [| destruct Hdrawn].
  change (cropPositions s1) with (cropPositions s) in Hdrawn.
  change (zoomLevels s1) with (zoomLevels s) in Hdrawn.
  rewrite Hp, Hzoom, (or_default_pos z (of_Z 1)) in Hdrawn by lra.
  pose proof (drawImageSource_within_one target img z p Htw Hth HW HH Hx Hy) as Hone.
  destruct (drawImageSource _ _ _ _) as [[[rx ry] rw] rh].
  cbn [fst] in Hdrawn. destruct Hdrawn as [Heq | []].
  injection Heq as _ -> -> -> -> _ _. exact Hone.
Qed.

(** ** The scenarios in binary64

    The engine code instantiated at IEEE 754 doubles, evaluated on the
    scenarios above: on these the rounded results agree with the
    rational model, and the unrounded ones differ from it in the last
    digits only. *)

Example string_of_Z_decimal :
  (string_of_Z 1091, string_of_Z 0, string_of_Z (-7)) = ("1091", "0", "-7")%string.
Proof. reflexivity. Qed.

Example removeExtension_examples :
  (removeExtension "poster.v2.png", removeExtension "a.b/poster", removeExtension "poster.")
  = ("poster.v2", "a.b/poster", "poster.")%string.
Proof. reflexivity. Qed.

Example Math_round_f64 :
  (Math_round 562.5%float, Math_round (-2.5)%float, Math_round 1546.5%float,
   Math_floor 1091.25%float, Math_floor (-0.5)%float)
  = (563, -2, 1547, 1091, -1)%Z.
Proof. vm_compute. reflexivity. Qed.

Example newTarget_f64 :
  (CropTarget.width (newTarget 2000%float 1000%float preset_mobile),
   CropTarget.height (newTarget 2000%float 1000%float preset_mobile))
  = (1091%float, 1000%float).
Proof. vm_compute. reflexivity. Qed.

(** 412.46562786434464 and 824.9312557286893. *)
Example calculateLayout_f64 :
  PreviewLayout.image
    (calculateLayout (newTarget 2000%float 1000%float preset_mobile) scenario_image_f64)
  = {| Size.width := 0x1.9c77336341777p+9%float;
       Size.height := 0x1.9c77336341777p+8%float |}.
Proof. vm_compute. reflexivity. Qed.

(** (-262.5, -178.12499999999997). *)
Example handleZoomChange_f64 :
  cropPositions
    (handleZoomChange "mobile" 1.5%float
       (scenario_state_f64 1%float
          {| Vector2D.x := (-100)%float; Vector2D.y := (-50)%float |}))
    !! "mobile"%string
  = Some {| Vector2D.x := (-262.5)%float; Vector2D.y := (-0x1.643ffffffffffp+7)%float |}.
Proof. vm_compute. reflexivity. Qed.

(** C5: the crop reads past the image.  Upload a 1125 x 2000 image, zoom
    the mobile preview to 2 and drag the image to its left edge: the
    stored position, x = -450, is the clamp bound [450 - 450 * 2].  The
    source rectangle before rounding starts at column 562.5 and is 562.5
    wide, so it ends exactly at the image's last column, 1125.
    [handleCrop] rounds the start and the width separately, both upwards
    to 563, and draws the columns 563 to 1126 of an image that has 1125.
    The values are those of binary64; the rationals give the same
    calls, in a state the handlers reach. *)
Theorem C5_crop_reads_past_image :
  let target := newTarget 1125%float 2000%float preset_mobile in
  let calls :=
    [DrawImage "mobile" 563 742 563 516 1125 1031;
     DrawImage "desktop" 0 759 1125 483 1125 483] in
  (exists img : ImageInfo.t float,
      imageInfo dragged_state_f64 = Some img /\
      ImageInfo.width img = 1125%float /\
      ImageInfo.height img = 2000%float /\
      In target (dynamicTargets dragged_state_f64) /\
      zoomLevels dragged_state_f64 !! "mobile"%string = Some 2%float /\
      Vector2D.x <$> cropPositions dragged_state_f64 !! "mobile"%string
      = Some (-450)%float /\
      (Size.width (PreviewLayout.container (calculateLayout target img))
       - Size.width (PreviewLayout.image (calculateLayout target img)) * 2)%float
      = (-450)%float /\
      sourceRectangle img (calculateLayout target img) 2%float
        (default zeroVector (cropPositions dragged_state_f64 !! "mobile"%string))
      = (562.5%float, 742.25%float, 562.5%float, 515.5%float)) /\
  snd (handleCrop obliging_canvas_f64 dragged_state_f64) = calls /\
  (1125 < 563 + 563)%Z /\
  reachable dragged_state /\
  snd (handleCrop obliging_canvas dragged_state) = calls.
Proof.
  cbv zeta. split.
  - eexists. split; [vm_compute; reflexivity |].
    split; [reflexivity |]. split; [reflexivity |].
    split; [left; vm_compute; reflexivity |].
    repeat split; vm_compute; reflexivity.
  - split; [vm_compute; reflexivity |].
    split; [reflexivity |].
    split; [exact dragged_state_reachable |].
    vm_compute. reflexivity.
Qed.

(* ===================================================================== *)
(** * Further properties of the handlers                                  *)
(* ===================================================================== *)

(** ** File names without their extension *)

Lemma isExtension_dot (a b : string) : isExtension (a +:+ "." +:+ b) = false.
Proof.
  induction a as [| c a IH]; simpl in *.
  - reflexivity.
  - rewrite IH. apply andb_false_r.
Qed.

Lemma append_nonempty (a b : string) : b <> ""%string -> a +:+ "." +:+ b <> ""%string.
Proof. destruct a; discriminate. Qed.

(** X1.  A final extension (a dot followed by one or more characters
    other than a dot and a slash) is removed, whatever precedes it. *)
Theorem X1_removeExtension_strips (base ext : string) :
  ext <> ""%string -> isExtension ext = true ->
  removeExtension (base +:+ "." +:+ ext) = base.
Proof.
  intros Hne Hext. induction base as [| c base IH].
  - change (removeExtension ("" +:+ "." +:+ ext))
      with (if Ascii.eqb "." "." && negb (String.eqb ext "") && isExtension ext
            then ""%string else String "." (removeExtension ext)).
    rewrite Hext.
    destruct (String.eqb_spec ext "") as [Heq | _]; [contradiction | reflexivity].
  - pose proof (isExtension_dot base ext) as Hdot.
    simpl in *. rewrite Hdot, andb_false_r. f_equal. exact IH.
Qed.

Lemma X1_removeExtension_strips_witness :
  removeExtension "holiday.2024/poster.v2.png" = "holiday.2024/poster.v2"%string.
Proof.
  apply (X1_removeExtension_strips "holiday.2024/poster.v2" "png");
    [discriminate | reflexivity].
Defined.

(** X2.  The result is either the name itself or the name without one
    final extension: nothing else is ever cut off, and at most one
    extension goes. *)
Theorem X2_removeExtension_only_extension (name : string) :
  removeExtension name = name \/
  exists ext : string,
    ext <> ""%string /\ isExtension ext = true /\
    name = removeExtension name +:+ "." +:+ ext.
Proof.
  induction name as [| c rest IH]; [left; reflexivity |].
  cbn [removeExtension].
  destruct (Ascii.eqb_spec c ".") as [-> | Hc]; cbn [andb].
  - destruct (String.eqb_spec rest "") as [-> | Hrest]; cbn [negb andb].
    + left. reflexivity.
    + destruct (isExtension rest) eqn:Hext.
      * right. exists rest. repeat split; [exact Hrest | exact Hext].
      * destruct IH as [IH | (ext & Hne & Hext' & IH)].
        -- left. rewrite IH. reflexivity.
        -- right. exists ext. repeat split; [exact Hne | exact Hext' |].
           rewrite IH at 1. reflexivity.
  - destruct IH as [IH | (ext & Hne & Hext' & IH)].
    + left. rewrite IH. reflexivity.
    + right. exists ext. repeat split; [exact Hne | exact Hext' |].
      rewrite IH at 1. reflexivity.
Qed.

(** ** Clamping and dragging *)

Lemma clamp_idempotent (m v : Q) :
  Qmin 0 (Qmax m (Qmin 0 (Qmax m v))) == Qmin 0 (Qmax m v).
Proof.
  pose proof (Q.max_spec m v) as Ha. set (a := Qmax m v) in *.
  pose proof (Q.min_spec 0 a) as Hb. set (b := Qmin 0 a) in *.
  pose proof (Q.max_spec m b) as Hc. set (c := Qmax m b) in *.
  pose proof (Q.min_spec 0 c) as Hd. set (d := Qmin 0 c) in *.
  clearbody d. clearbody c. clearbody b. clearbody a.
  intuition lra.
Qed.

(** X3.  Clamping is idempotent, whatever the sizes of container and
    image: a clamped position is not moved by a second clamp. *)
Theorem X3_clampPosition_idempotent (container image : Size.t Q) (pos : Vector2D.t Q) :
  Vector2D_equiv
    (clampPosition container image (clampPosition container image pos))
    (clampPosition container image pos).
Proof.
  unfold Vector2D_equiv, clampPosition. q_ops. cbn [Vector2D.x Vector2D.y].
  split; apply clamp_idempotent.
Qed.

(** X4.  Against an image at least as large as the container, the
    positions that clamping leaves alone are exactly those within the
    bounds. *)
Theorem X4_clampPosition_fixed_points (container image : Size.t Q) (pos : Vector2D.t Q) :
  Size.width container <= Size.width image ->
  Size.height container <= Size.height image ->
  Vector2D_equiv (clampPosition container image pos) pos <->
  (Size.width container - Size.width image <= Vector2D.x pos <= 0 /\
   Size.height container - Size.height image <= Vector2D.y pos <= 0).
Proof.
  intros Hw Hh.
  destruct (clampPosition_bounds container image pos Hw Hh) as [Hx Hy].
  unfold Vector2D_equiv. split.
  - intros [Hxeq Hyeq]. rewrite Hxeq in Hx. rewrite Hyeq in Hy. split; assumption.
  - intros [Hxin Hyin]. unfold clampPosition. q_ops. cbn [Vector2D.x Vector2D.y].
    split; apply clamp_fixes; assumption.
Qed.

Lemma X4_clampPosition_fixed_points_witness :
  Vector2D_equiv
    (clampPosition {| Size.width := 450; Size.height := 400 |}
       {| Size.width := 900; Size.height := 400 |}
       {| Vector2D.x := - (120); Vector2D.y := 0 |})
    {| Vector2D.x := - (120); Vector2D.y := 0 |}.
Proof.
  apply (X4_clampPosition_fixed_points {| Size.width := 450; Size.height := 400 |}
           {| Size.width := 900; Size.height := 400 |}
           {| Vector2D.x := - (120); Vector2D.y := 0 |});
    try (vm_compute; discriminate).
  split; split; vm_compute; discriminate.
Defined.

(** ** Zoom changes *)

Lemma find_target_absent (id : string) (targets : list (CropTarget.t Q)) :
  ~ In id (map CropTarget.id targets) ->
  List.find (fun t => String.eqb (CropTarget.id t) id) targets = None.
Proof.
  intros Hnot. destruct (List.find _ targets) as [t |] eqn:Hfind; [| reflexivity].
  apply find_target_spec in Hfind as [Hin Hid].
  exfalso. apply Hnot. rewrite <- Hid. apply in_map. exact Hin.
Qed.

(** X6.  A zoom change is ignored, and the state left as it is, while no
    image is loaded and when no current target has the given id. *)
Theorem X6_handleZoomChange_ignored (id : string) (newZoom : Q) (s : AppState Q) :
  imageInfo s = None \/ ~ In id (map CropTarget.id (dynamicTargets s)) ->
  handleZoomChange id newZoom s = s.
Proof.
  intros Hcase. unfold handleZoomChange.
  destruct (imageInfo s) as [img |] eqn:Himg; [| reflexivity].
  destruct Hcase as [Hnone | Habsent]; [discriminate Hnone |].
  rewrite (find_target_absent id _ Habsent). reflexivity.
Qed.

Lemma X6_handleZoomChange_ignored_witness :
  handleZoomChange "tablet" 2 dragged_state = dragged_state.
Proof.
  apply X6_handleZoomChange_ignored. right.
  intros [Heq | [Heq | []]]; discriminate Heq.
Defined.

(** X7.  A zoom change of one target touches nothing but that target's
    position and zoom: the image, the targets, the output scales, the
    stored results, the processing flag, the quality, and the position
    and zoom of every other id stay as they were. *)
Theorem X7_handleZoomChange_frame (id : string) (newZoom : Q) (s : AppState Q) :
  let s' := handleZoomChange id newZoom s in
  imageInfo s' = imageInfo s /\
  dynamicTargets s' = dynamicTargets s /\
  targetScales s' = targetScales s /\
  croppedImages s' = croppedImages s /\
  isProcessing s' = isProcessing s /\
  quality s' = quality s /\
  forall k : string, k <> id ->
    cropPositions s' !! k = cropPositions s !! k /\
    zoomLevels s' !! k = zoomLevels s !! k.
Proof.
  cbv zeta.
  assert (Hother : forall k : string, k <> id ->
            cropPositions (handleZoomChange id newZoom s) !! k = cropPositions s !! k /\
            zoomLevels (handleZoomChange id newZoom s) !! k = zoomLevels s !! k)
    by (intros k Hne; apply handleZoomChange_other; exact Hne).
  revert Hother. unfold handleZoomChange.
  destruct (imageInfo s) as [img |] eqn:Himg.
  - destruct (List.find _ (dynamicTargets s)) as [t |];
      unfold setCropPositions, setZoomLevels;
      cbn [imageInfo dynamicTargets targetScales croppedImages isProcessing quality];
      rewrite ?Himg; intros Hother; repeat split; apply Hother; assumption.
  - rewrite ?Himg. intros Hother. repeat split; apply Hother; assumption.
Qed.

(** ** Layout and fitted target *)

(** X12.  The cover layout is tight: the rendered image matches the
    container exactly in width or in height, in any arithmetic (the
    branch taken assigns one of the container's two dimensions to the
    image unchanged). *)
Theorem X12_cover_layout_tight {N : Type} {num : JSNumber N}
    (target : CropTarget.t N) (img : ImageInfo.t N) :
  let layout := calculateLayout target img in
  Size.width (PreviewLayout.image layout) = Size.width (PreviewLayout.container layout) \/
  Size.height (PreviewLayout.image layout) = Size.height (PreviewLayout.container layout).
Proof.
  cbv zeta. unfold calculateLayout.
  destruct (num_gt _ _).
  - right. reflexivity.
  - left. reflexivity.
Qed.

(** X13.  The fitted target spans the image in one direction: for an
    image of whole-number size [w] x [h] its width is [w] or its height
    is [h]. *)
Theorem X13_fitted_target_spans_image (w h : Z) (preset : CropPreset.t Q) :
  0 < CropPreset.baseWidth preset -> 0 < CropPreset.baseHeight preset ->
  let t := newTarget (inject_Z w) (inject_Z h) preset in
  CropTarget.width t = inject_Z w \/ CropTarget.height t = inject_Z h.
Proof.
  intros _ _ t. subst t.
  set (r := CropPreset.baseWidth preset / CropPreset.baseHeight preset).
  destruct (Qlt_le_dec (inject_Z h) (inject_Z w / r)) as [Hlt | Hle].
  - right. destruct (newTarget_refit _ _ preset Hlt) as [_ Hh].
    rewrite Hh, Qfloor_Z. reflexivity.
  - left. destruct (newTarget_by_width _ _ preset Hle) as [Hw _].
    rewrite Hw, Qfloor_Z. reflexivity.
Qed.

Lemma X13_fitted_target_spans_image_witness :
  CropTarget.width (newTarget (inject_Z 1125) (inject_Z 2000) preset_desktop) = inject_Z 1125 \/
  CropTarget.height (newTarget (inject_Z 1125) (inject_Z 2000) preset_desktop) = inject_Z 2000.
Proof.
  apply (X13_fitted_target_spans_image 1125 2000 preset_desktop); reflexivity.
Defined.

(** ** Upload *)

Lemma keys_foldl_insert {A V : Type} (key : A -> string) (val : A -> V)
    (l : list A) (k : string) :
  is_Some (foldl (fun acc x => <[key x := val x]> acc) (∅ : gmap string V) l !! k)
  <-> In k (map key l).
Proof.
  destruct (lookup_foldl_insert key val l ∅ k)
    as [[Hnot Hlook] | (x & Hin & Hkey & Hlook)]; rewrite Hlook.
  - rewrite lookup_empty. split; [intros [v Hv]; discriminate Hv | intros Hin; contradiction].
  - split; [intros _ | intros _; eexists; reflexivity].
    rewrite <- Hkey. apply in_map. exact Hin.
Qed.

(** X17.  An upload computes the state from the file and the decoded
    image alone: whatever the state before, the state after is the same,
    with no stored results, the processing flag cleared and the quality
    back at 0.92; when decoding fails it is the initial, empty state. *)
Theorem X17_upload_starts_afresh (decoded : option (string * Q * Q)) (file : File.t Q)
    (s s0 : AppState Q) :
  handleImageUpload decoded file s = handleImageUpload decoded file s0 /\
  croppedImages (handleImageUpload decoded file s) = ∅ /\
  isProcessing (handleImageUpload decoded file s) = false /\
  quality (handleImageUpload decoded file s) == 92 # 100 /\
  handleImageUpload None file s = initialState.
Proof.
  split; [| split; [| split; [| split]]].
  - destruct decoded as [[[src W] Ht] |]; reflexivity.
  - destruct decoded as [[[src W] Ht] |]; reflexivity.
  - destruct decoded as [[[src W] Ht] |]; reflexivity.
  - destruct decoded as [[[src W] Ht] |]; reflexivity.
  - reflexivity.
Qed.

(** X18.  After an upload there is one target per preset, in the order
    of the presets and with their ids, and the positions, the zoom levels
    and the output scales are stored under exactly the targets' ids. *)
Theorem X18_upload_keys (file : File.t Q) (src : string) (W Ht : Q) (s : AppState Q)
    (k : string) :
  let s' := handleImageUpload (Some (src, W, Ht)) file s in
  map CropTarget.id (dynamicTargets s') = map CropPreset.id CROP_PRESETS /\
  (is_Some (cropPositions s' !! k) <-> In k (map CropTarget.id (dynamicTargets s'))) /\
  (is_Some (zoomLevels s' !! k) <-> In k (map CropTarget.id (dynamicTargets s'))) /\
  (is_Some (targetScales s' !! k) <-> In k (map CropTarget.id (dynamicTargets s'))).
Proof.
  intros s'. destruct (uploaded_image file src W Ht s) as [_ Htargets].
  fold s' in Htargets. rewrite Htargets. split; [apply newTargets_ids |].
  split; [| split].
  - change (cropPositions s') with
      (initialPositions (newTargets W Ht)
         {| ImageInfo.src := src; ImageInfo.width := W; ImageInfo.height := Ht;
            ImageInfo.name := removeExtension (File.name file);
            ImageInfo.size := File.size file |}).
    unfold initialPositions. apply keys_foldl_insert.
  - change (zoomLevels s') with (initialOnes (newTargets W Ht)).
    unfold initialOnes. apply (keys_foldl_insert CropTarget.id (fun _ => of_Z 1)).
  - change (targetScales s') with (initialOnes (newTargets W Ht)).
    unfold initialOnes. apply (keys_foldl_insert CropTarget.id (fun _ => of_Z 1)).
Qed.

(** ** Crop *)

Lemma getOutputFilename_eq (baseName : string) (target : CropTarget.t Q) (scale : Q) :
  getOutputFilename baseName target scale
  = baseName +:+ default ""%string (CropTarget.suffix target) +:+ "_"
      +:+ string_of_Z (Qround_half_up (CropTarget.width target * scale))
      +:+ "x" +:+ string_of_Z (Qround_half_up (CropTarget.height target * scale))
      +:+ ".webp".
Proof.
  unfold getOutputFilename. destruct (CropTarget.suffix target) as [suffix |]; [| reflexivity].
  destruct (String.eqb_spec suffix "") as [-> | _]; reflexivity.
Qed.

Section CropFacts.
Variables (env : Canvas Q) (img : ImageInfo.t Q).

(** What a state contributes to a target's export, up to the output
    scale: the positions and the zoom levels. *)
Lemma cropPromise_scale_independent (a b : AppState Q) (target : CropTarget.t Q) :
  cropPositions a = cropPositions b -> zoomLevels a = zoomLevels b ->
  snd (cropPromise env img a target) = snd (cropPromise env img b target) /\
  map sourceOnly (fst (cropPromise env img a target))
  = map sourceOnly (fst (cropPromise env img b target)).
Proof.
  intros Hpos Hzoom. unfold cropPromise. rewrite Hpos, Hzoom.
  destruct (getContext env (CropTarget.id target)); cbn [negb]; [| split; reflexivity].
  destruct (cropPositions b !! CropTarget.id target); [| split; reflexivity].
  destruct (drawImageSource _ _ _ _) as [[[sx sy] sw] sh]. split; reflexivity.
Qed.

Lemma cropPromise_draws (s : AppState Q) (target : CropTarget.t Q)
    (id : string) (sx sy sw sh dw dh : Z) :
  In (DrawImage id sx sy sw sh dw dh) (fst (cropPromise env img s target)) ->
  id = CropTarget.id target /\
  dw = Qround_half_up (CropTarget.width target
                       * or_default (targetScales s !! CropTarget.id target) 1) /\
  dh = Qround_half_up (CropTarget.height target
                       * or_default (targetScales s !! CropTarget.id target) 1).
Proof.
  unfold cropPromise.
  destruct (getContext env (CropTarget.id target)); cbn [negb]; [| intros []].
  destruct (cropPositions s !! CropTarget.id target); [| intros []].
  destruct (drawImageSource _ _ _ _) as [[[rx ry] rw] rh].
  cbn [fst]. intros [Heq | []]. injection Heq as <- _ _ _ _ <- <-.
  repeat split; reflexivity.
Qed.
End CropFacts.

(** X19.  Cropping leaves the editing state alone: the image, the
    targets, the positions, the zoom levels, the output scales and the
    quality are as before, and the processing flag is cleared at the end
    whether the export succeeded or not; without an image nothing
    happens at all. *)
Theorem X19_handleCrop_frame (env : Canvas Q) (s : AppState Q) :
  let s' := fst (handleCrop env s) in
  imageInfo s' = imageInfo s /\
  dynamicTargets s' = dynamicTargets s /\
  cropPositions s' = cropPositions s /\
  zoomLevels s' = zoomLevels s /\
  targetScales s' = targetScales s /\
  quality s' = quality s /\
  (is_Some (imageInfo s) -> isProcessing s' = false) /\
  (imageInfo s = None -> handleCrop env s = (s, [])).
Proof.
  cbv zeta. unfold handleCrop.
  destruct (imageInfo s) as [img |] eqn:Himg.
  - destruct (Promise_all _);
      cbn [fst imageInfo dynamicTargets cropPositions zoomLevels targetScales quality
           isProcessing setIsProcessing setCroppedImages];
      rewrite ?Himg; repeat split; intros Hnone; discriminate Hnone.
  - cbn [fst]. rewrite ?Himg. repeat split. intros [img Hsome]. discriminate Hsome.
Qed.

(** X20.  The output scale does not change what is cut out: after a
    scale change the same source rectangles are drawn from, and the same
    failure notices are raised; only the destination sizes differ. *)
Theorem X20_scale_keeps_source_rectangles (env : Canvas Q) (s : AppState Q)
    (id : string) (newScale : Q) :
  map sourceOnly (snd (handleCrop env (handleScaleChange id newScale s)))
  = map sourceOnly (snd (handleCrop env s)).
Proof.
  unfold handleCrop.
  change (imageInfo (handleScaleChange id newScale s)) with (imageInfo s).
  destruct (imageInfo s) as [img |]; [| reflexivity].
  set (a := setIsProcessing true (handleScaleChange id newScale s)).
  set (b := setIsProcessing true s).
  change (dynamicTargets a) with (dynamicTargets s).
  change (dynamicTargets b) with (dynamicTargets s).
  assert (Hsettle : map snd (map (cropPromise env img a) (dynamicTargets s))
                    = map snd (map (cropPromise env img b) (dynamicTargets s))).
  { rewrite !map_map. apply map_ext. intros target.
    apply (cropPromise_scale_independent env img a b target); reflexivity. }
  assert (Hdrawn : map sourceOnly
                     (concat (map fst (map (cropPromise env img a) (dynamicTargets s))))
                   = map sourceOnly
                       (concat (map fst (map (cropPromise env img b) (dynamicTargets s))))).
  { rewrite !concat_map, !map_map. f_equal. apply map_ext. intros target.
    apply (cropPromise_scale_independent env img a b target); reflexivity. }
  rewrite Hsettle.
  destruct (Promise_all _) as [error | results]; cbn [snd].
  - rewrite !map_app, Hdrawn. reflexivity.
  - exact Hdrawn.
Qed.

Lemma handleCrop_scales (env : Canvas Q) (s : AppState Q) :
  targetScales (fst (handleCrop env s)) = targetScales s.
Proof.
  unfold handleCrop. destruct (imageInfo s); [| reflexivity].
  destruct (Promise_all _); reflexivity.
Qed.

Lemma handleCrop_drawn (env : Canvas Q) (s : AppState Q) (img : ImageInfo.t Q)
    (e : Effect) :
  imageInfo s = Some img ->
  In e (snd (handleCrop env s)) ->
  (exists target, In target (dynamicTargets s) /\
                  In e (fst (cropPromise env img (setIsProcessing true s) target))) \/
  (exists error, e = ConsoleError "Cropping failed:" error) \/
  e = Alert crop_alert.
Proof.
  intros Himg Hin. unfold handleCrop in Hin. rewrite Himg in Hin.
  set (s1 := setIsProcessing true s) in *.
  change (dynamicTargets s1) with (dynamicTargets s) in Hin.
  assert (Hdrawn : In e (concat (map fst (map (cropPromise env img s1) (dynamicTargets s)))) ->
                   exists target, In target (dynamicTargets s) /\
                                  In e (fst (cropPromise env img s1 target))).
  { intros Hd. apply in_concat in Hd as (l & Hl & Hd).
    apply in_map_iff in Hl as (job & <- & Hjob).
    apply in_map_iff in Hjob as (target & <- & Htarget).
    exists target. split; assumption. }
  destruct (Promise_all _) as [error | results]; cbn [snd] in Hin.
  - apply in_app_or in Hin as [Hin | [Hin | [Hin | []]]].
    + left. apply Hdrawn. exact Hin.
    + right. left. exists error. symmetry. exact Hin.
    + right. right. symmetry. exact Hin.
  - left. apply Hdrawn. exact Hin.
Qed.

(** X21.  The size drawn to is the size shown and named: the destination
    size of every [drawImage] call of a crop is the size on the badge of
    that target's preview, and, while the output scale is not changed,
    the size in the file name of that target's download link. *)
Theorem X21_output_size_consistent (env : Canvas Q) (s : AppState Q) (img : ImageInfo.t Q)
    (id : string) (sx sy sw sh dw dh : Z) :
  imageInfo s = Some img ->
  In (DrawImage id sx sy sw sh dw dh) (snd (handleCrop env s)) ->
  exists target : CropTarget.t Q,
    In target (dynamicTargets s) /\ CropTarget.id target = id /\
    CropTarget.width (displayTarget s target) = inject_Z dw /\
    CropTarget.height (displayTarget s target) = inject_Z dh /\
    forall result : CroppedResult.t Q,
      croppedImages (fst (handleCrop env s)) !! id = Some result ->
      resultDownload img (fst (handleCrop env s)) target
      = Some (CroppedResult.url result,
              ImageInfo.name img +:+ default ""%string (CropTarget.suffix target) +:+ "_"
                +:+ string_of_Z dw +:+ "x" +:+ string_of_Z dh +:+ ".webp").
Proof.
  intros Himg Hin.
  destruct (handleCrop_drawn env s img _ Himg Hin)
    as [(target & Htarget & Hdraw) | [[error Herr] | Halert]];
    [| discriminate Herr | discriminate Halert].
  apply cropPromise_draws in Hdraw as (Hid & Hdw & Hdh).
  change (targetScales (setIsProcessing true s)) with (targetScales s) in Hdw, Hdh.
  subst id.
  exists target. split; [exact Htarget |]. split; [reflexivity |].
  split; [rewrite Hdw; reflexivity |]. split; [rewrite Hdh; reflexivity |].
  intros result Hresult. unfold resultDownload.
  rewrite handleCrop_scales, Hresult, getOutputFilename_eq, Hdw, Hdh.
  reflexivity.
Qed.

Lemma X21_output_size_consistent_witness :
  exists target : CropTarget.t Q,
    In target (dynamicTargets dragged_state) /\
    CropTarget.width (displayTarget dragged_state target) = inject_Z 1125 /\
    CropTarget.height (displayTarget dragged_state target) = inject_Z 1031.
Proof.
  destruct (X21_output_size_consistent obliging_canvas dragged_state portrait_image
              "mobile" 563 742 563 516 1125 1031 eq_refl)
    as (target & Hin & _ & Hw & Hh & _).
  - left. vm_compute. reflexivity.
  - exists target. split; [exact Hin |]. split; [exact Hw | exact Hh].
Defined.

(** ** Reachable states *)

(** X22.  In every state the interface can reach, every preview is
    covered: each target has a zoom of at least 1 and a position, the
    image shown is at least as large as the container, and the position
    is within the clamp bounds of the layout shown. *)
Theorem X22_reachable_previews_covered (s : AppState Q) (img : ImageInfo.t Q)
    (target : CropTarget.t Q) :
  reachable s -> imageInfo s = Some img -> In target (dynamicTargets s) ->
  exists (z : Q) (p : Vector2D.t Q),
    zoomLevels s !! CropTarget.id target = Some z /\ 1 <= z /\
    cropPositions s !! CropTarget.id target = Some p /\
    let container := fst (displayLayout target img s) in
    let image := snd (displayLayout target img s) in
    Size.width container <= Size.width image /\
    Size.height container <= Size.height image /\
    Size.width container - Size.width image <= Vector2D.x p <= 0 /\
    Size.height container - Size.height image <= Vector2D.y p <= 0.
Proof.
  intros Hreach Himg Hin. apply reachable_covering in Hreach.
  unfold covering_invariant in Hreach. rewrite Himg in Hreach.
  destruct Hreach as (HW & HH & _ & Hall).
  destruct (Hall target Hin) as (Htw & Hth & z & p & Hzoom & Hz & Hp & Hx & Hy).
  exists z, p. split; [exact Hzoom |]. split; [exact Hz |]. split; [exact Hp |].
  cbv zeta. unfold displayLayout. cbn [fst snd Size.width Size.height].
  rewrite Hzoom, (or_default_pos z (of_Z 1)) by lra.
  destruct (zoomed_layout_covers target img z Htw Hth HW HH Hz) as [Hw Hh].
  repeat split; solve [apply Hw | apply Hh | apply Hx | apply Hy].
Qed.

Lemma X22_reachable_previews_covered_witness :
  exists (z : Q) (p : Vector2D.t Q),
    zoomLevels dragged_state !! "mobile"%string = Some z /\ 1 <= z /\
    cropPositions dragged_state !! "mobile"%string = Some p.
Proof.
  destruct (X22_reachable_previews_covered dragged_state portrait_image
              (newTarget 1125 2000 preset_mobile) dragged_state_reachable eq_refl)
    as (z & p & Hz & Hge & Hp & _).
  - left. reflexivity.
  - exists z, p. split; [exact Hz |]. split; [exact Hge | exact Hp].
Defined.

(** ** Upload widget, drag and scale *)

(** X24.  Both upload handlers look at the first file of an event only:
    an event without files does nothing, further files are ignored, and
    a drop is treated exactly like a pick. *)
Theorem X24_uploader_first_file_only {N St : Type} (onImageUpload : File.t N -> St -> St)
    (files : list (File.t N)) (s : St) :
  handleFileChange onImageUpload [] s = s /\
  handleDrop onImageUpload [] s = s /\
  handleFileChange onImageUpload files s = handleFileChange onImageUpload (take 1 files) s /\
  handleDrop onImageUpload files s = handleDrop onImageUpload (take 1 files) s /\
  handleDrop onImageUpload files s = handleFileChange onImageUpload files s.
Proof.
  split; [reflexivity |]. split; [reflexivity |].
  destruct files as [| file others]; repeat split; reflexivity.
Qed.

(** X25.  A drag moves one target only, and a scale change rescales one
    target only: a mouse move on a preview leaves everything but the
    position stored under that target's id as it was, and a scale change
    everything but the scale stored under the given id. *)
Theorem X25_drag_and_scale_frame (target : CropTarget.t Q) (d : DragState Q)
    (clientX clientY : Q) (id : string) (newScale : Q) (s : AppState Q) :
  (let s' := preview_mouseMove target d clientX clientY s in
   imageInfo s' = imageInfo s /\ dynamicTargets s' = dynamicTargets s /\
   zoomLevels s' = zoomLevels s /\ targetScales s' = targetScales s /\
   croppedImages s' = croppedImages s /\ isProcessing s' = isProcessing s /\
   quality s' = quality s /\
   forall k : string, k <> CropTarget.id target ->
     cropPositions s' !! k = cropPositions s !! k) /\
  (let s' := handleScaleChange id newScale s in
   imageInfo s' = imageInfo s /\ dynamicTargets s' = dynamicTargets s /\
   cropPositions s' = cropPositions s /\ zoomLevels s' = zoomLevels s /\
   croppedImages s' = croppedImages s /\ isProcessing s' = isProcessing s /\
   quality s' = quality s /\
   targetScales s' !! id = Some newScale /\
   forall k : string, k <> id -> targetScales s' !! k = targetScales s !! k).
Proof.
  cbv zeta. split.
  - unfold preview_mouseMove.
    destruct (imageInfo s) as [img |] eqn:Himg; [| rewrite ?Himg; repeat split].
    unfold displayLayout, handleMouseMove.
    destruct (isDragging d); cbn [negb]; [| rewrite ?Himg; repeat split].
    unfold handlePositionChange, setCropPositions.
    cbn [imageInfo dynamicTargets zoomLevels targetScales croppedImages isProcessing
         quality cropPositions].
    rewrite ?Himg. repeat split.
    intros k Hne. apply lookup_insert_ne. congruence.
  - unfold handleScaleChange, setTargetScales.
    cbn [imageInfo dynamicTargets zoomLevels targetScales croppedImages isProcessing
         quality cropPositions].
    repeat split; [apply lookup_insert_eq |].
    intros k Hne. apply lookup_insert_ne. congruence.
Qed.

Lemma reachable_crop_within_one_witness :
  exists img : ImageInfo.t Q,
    imageInfo dragged_state = Some img /\
    inject_Z (563 + 563) <= ImageInfo.width img + 1.
Proof.
  destruct (reachable_crop_within_one dragged_state obliging_canvas
              "mobile" 563 742 563 516 1125 1031 dragged_state_reachable)
    as (img & Himg & _ & _ & _ & _ & Hw & _).
  - left. vm_compute. reflexivity.
  - exists img. split; [exact Himg | exact Hw].
Defined.
